(** * websocket-server: the MongoDB access layer

    A shallow embedding of [tool/mongodb.ts] (the connection manager
    [mongoconnect]) and of the generic collection facade [MongoBase]
    (model resolution with the tenant cache, identifier generation,
    create / update / upsert / paging / count), followed by the properties
    stated about them.

    JavaScript values are an inductive type, records and option bags are
    finite maps from property names to values, the process-wide registry
    [global.tenantDBModel] and the pending timeouts of the runtime are
    finite maps inside an explicit state, and every call that leaves the
    repository (schema construction, [server.model], [setTimeout],
    [mongoose.connect], the logger) is recorded in a trace. *)

From Stdlib Require Import ZArith List String Ascii Lia.
From stdpp Require Import base option list gmap strings fin_maps sorting.

#[local] Open Scope Z_scope.
#[local] Open Scope string_scope.

(** ** JavaScript values *)

Module JS.

Inductive value :=
| VUndefined
| VNull
| VBool (b : bool)
| VNum (z : Z)
| VNaN
| VStr (s : string).

#[global] Instance value_eq_dec : EqDecision value.
Proof. solve_decision. Defined.

Inductive type_tag := TUndefined | TObject | TBoolean | TNumber | TString.

Definition typeof (v : value) : type_tag :=
  match v with
  | VUndefined => TUndefined
  | VNull => TObject
  | VBool _ => TBoolean
  | VNum _ | VNaN => TNumber
  | VStr _ => TString
  end.

Definition is_string (v : value) : bool :=
  match typeof v with TString => true | _ => false end.

(** [ToBoolean]: what [if (v)], [!v] and [v || d] test. *)
Definition truthy (v : value) : bool :=
  match v with
  | VUndefined | VNull | VNaN => false
  | VBool b => b
  | VNum z => negb (z =? 0)%Z
  | VStr s => negb (String.eqb s "")
  end.

(** An object with string keys: property name to value.  Reading a
    property that is not there gives [undefined]. *)
Abbreviation object := (gmap string value).

Definition get (o : object) (k : string) : value :=
  match o !! k with Some v => v | None => VUndefined end.

(** [{ ...o, k: v }] for an [o] that may be [undefined]: the own
    properties of [o], then [k] set to [v]. *)
Definition spread (o : option object) : object :=
  match o with Some m => m | None => ∅ end.

(** White space and line terminators stripped by [String.prototype.trim],
    among the code units below 256: TAB, LF, VT, FF, CR, SP, NBSP. *)
Definition is_space (c : ascii) : bool :=
  let n := N_of_ascii c in
  ((9 <=? n) && (n <=? 13) || (n =? 32) || (n =? 160))%N.

Fixpoint trim_start (s : string) : string :=
  match s with
  | EmptyString => EmptyString
  | String c rest => if is_space c then trim_start rest else s
  end.

Fixpoint trim_end (s : string) : string :=
  match s with
  | EmptyString => EmptyString
  | String c rest =>
      match trim_end rest with
      | EmptyString => if is_space c then EmptyString else String c EmptyString
      | t => String c t
      end
  end.

Definition trim (s : string) : string := trim_end (trim_start s).

(** Numbers as far as the facade looks at them: an integer or [NaN]. *)
Inductive number := Int (z : Z) | NaN.

Definition number_truthy (n : number) : bool :=
  match n with Int z => negb (z =? 0)%Z | NaN => false end.

End JS.

Import JS.

(** ** The driver's object identifiers

    [new Types.ObjectId().toString()] belongs to the driver, not to the
    repository.  It is modelled the way the driver builds it: twelve bytes
    made of a four-byte time stamp in seconds, a five-byte per-process
    value and a three-byte counter that advances on every identifier,
    printed as lower-case hexadecimal. *)

Module ObjectId.

Record generator := Generator {
  seconds : Z;
  process_unique : Z;
  index : Z
}.

Definition next_index (g : generator) : Z := (index g + 1) mod 16777215.

Definition pack (g : generator) (inc : Z) : Z :=
  Z.lor (Z.shiftl (Z.land (seconds g) (Z.ones 32)) 64)
    (Z.lor (Z.shiftl (Z.land (process_unique g) (Z.ones 40)) 24)
           (Z.land inc (Z.ones 24))).

Definition generate (g : generator) : Z * generator :=
  let inc := next_index g in
  (pack g inc, Generator (seconds g) (process_unique g) inc).

Definition hex_digit (d : Z) : ascii :=
  match d with
  | 0 => "0" | 1 => "1" | 2 => "2" | 3 => "3" | 4 => "4" | 5 => "5"
  | 6 => "6" | 7 => "7" | 8 => "8" | 9 => "9" | 10 => "a" | 11 => "b"
  | 12 => "c" | 13 => "d" | 14 => "e" | _ => "f"
  end%char.

(** The [n] low nibbles of [z], most significant first. *)
Fixpoint hex (n : nat) (z : Z) : string :=
  match n with
  | O => EmptyString
  | S k => String (hex_digit (Z.land (Z.shiftr z (4 * Z.of_nat k)) 15)) (hex k z)
  end.

Definition toString (oid : Z) : string := hex 24 oid.

Definition is_hex (c : ascii) : bool :=
  let n := N_of_ascii c in
  ((48 <=? n) && (n <=? 57) || (97 <=? n) && (n <=? 102))%N.

Fixpoint all_hex (s : string) : bool :=
  match s with
  | EmptyString => true
  | String c rest => is_hex c && all_hex rest
  end.

#[global] Arguments pack : simpl never.
#[global] Arguments next_index : simpl never.
#[global] Arguments toString : simpl never.

End ObjectId.

(** ** The driver boundary used by model resolution

    Schemas are built by the repository ([new mongodb.schema], then
    [_schema.index] per index entry); compiling a schema into a model is
    the driver's [connection.model].  The driver is an interface: model
    resolution is stated for every implementation of it. *)

Module Mongoose.

Abbreviation schema_definition := (list (string * string)).
Abbreviation index_options := (gmap string value).

Record schema_options := SchemaOptions {
  opt__id : bool;
  opt_versionKey : bool;
  opt_createdAt : bool;
  opt_updatedAt : bool
}.

Record schema := Schema {
  schema_id : nat;
  definition : schema_definition;
  options : schema_options;
  indexes : list (list (string * Z) * index_options)
}.

(** [connection.model(name, schema, collection)] on a driver state [D],
    giving a model handle [H]. *)
Class Driver (D H : Type) := {
  server_model : string → schema → string → D → H * D
}.

(** A driver in the manner of mongoose: with the collection argument
    given, [connection.model] compiles a model from the schema it is
    handed and registers it under the name. *)
Record compiled := Compiled {
  model_id : nat;
  model_name : string;
  model_schema : schema;
  model_collection : string
}.

Record registry := Registry {
  models : gmap string compiled;
  next_model : nat
}.

Definition compile_model (name : string) (s : schema) (collection : string)
    (r : registry) : compiled * registry :=
  let m := Compiled (next_model r) name s collection in
  (m, Registry (<[name := m]> (models r)) (S (next_model r))).

#[global] Instance compiling_driver : Driver registry compiled :=
  {| server_model := compile_model |}.

End Mongoose.

Import Mongoose.

(** ** MongoBase *)

Module MongoBase.

(** The directions a sort mapping may give a field:
    ['asc' | 'desc' | 'ascending' | 'descending' | '1' | '-1']. *)
Inductive direction := asc | desc | ascending | descending | plus_one | minus_one.

Abbreviation sort_spec := (list (string * direction)).

(** The query object built by [find(...).sort(...).skip(...).limit(...).lean()].
    It holds the options bag as given and, apart from it, the sort, skip
    and limit set so far: [find] applies the bag first, entry by entry
    through the method of the same name, and the later builder calls work
    on what the bag left.  The sort is kept as the driver keeps it, a
    mapping in key order to which every [sort] call adds its keys. *)
Record Query := MkQuery {
  q_conditions : object;
  q_projection : value;
  q_options : option object;
  q_sort : sort_spec;
  q_skip : option number;
  q_limit : option number;
  q_lean : bool
}.

(** [sort[key] = direction]: a key that is there keeps its place. *)
Fixpoint sort_put (key : string) (d : direction) (s : sort_spec) : sort_spec :=
  match s with
  | [] => [(key, d)]
  | (k, d') :: rest =>
      if String.eqb k key then (key, d) :: rest else (k, d') :: sort_put key d rest
  end.

Definition sort_merge (s more : sort_spec) : sort_spec :=
  fold_left (λ acc kd, sort_put (fst kd) (snd kd) acc) more s.

(** [arg.split(' ')] *)
Fixpoint split_on_space (s : string) : list string :=
  match s with
  | EmptyString => [EmptyString]
  | String c rest =>
      if Ascii.eqb c " " then EmptyString :: split_on_space rest
      else match split_on_space rest with
           | tok :: toks => String c tok :: toks
           | [] => [String c EmptyString]
           end
  end.

(** A sort given as a string: path names separated by spaces, descending
    where the name is prefixed with [-]. *)
Definition sort_of_string (s : string) : sort_spec :=
  map (λ tok, match tok with
              | String "-" name => (name, minus_one)
              | _ => (tok, plus_one)
              end) (split_on_space s).

Definition number_of_value (v : value) : option number :=
  match v with
  | VNum z => Some (Int z)
  | VNaN => Some NaN
  | _ => None
  end.

(** [.sort(arg)] *)
Definition Query_sort (arg : option sort_spec) (q : Query) : Query :=
  MkQuery (q_conditions q) (q_projection q) (q_options q)
          (match arg with Some s => sort_merge (q_sort q) s | None => q_sort q end)
          (q_skip q) (q_limit q) (q_lean q).

(** [setOptions(options)], for the entries that bear on which documents
    come back and in what order: a [sort] in string form, and a [skip] and
    a [limit] that are numbers.  The bag is kept for the driver as it is. *)
Definition Query_setOptions (options : option object) (q : Query) : Query :=
  match options with
  | None => q
  | Some bag =>
      MkQuery (q_conditions q) (q_projection q) options
              (match bag !! "sort" with
               | Some (VStr s) => sort_merge (q_sort q) (sort_of_string s)
               | _ => q_sort q
               end)
              (match bag !! "skip" with
               | Some v => match number_of_value v with
                           | Some n => Some n
                           | None => q_skip q
                           end
               | None => q_skip q
               end)
              (match bag !! "limit" with
               | Some v => match number_of_value v with
                           | Some n => Some n
                           | None => q_limit q
                           end
               | None => q_limit q
               end)
              (q_lean q)
  end.

(** [this.model.find(conditions, projection, options)] *)
Definition Model_find (conditions : object) (projection : value)
    (options : option object) : Query :=
  Query_setOptions options (MkQuery conditions projection None [] None None false).

Definition Query_skip (n : number) (q : Query) : Query :=
  MkQuery (q_conditions q) (q_projection q) (q_options q) (q_sort q)
          (Some n) (q_limit q) (q_lean q).

Definition Query_limit (n : number) (q : Query) : Query :=
  MkQuery (q_conditions q) (q_projection q) (q_options q) (q_sort q)
          (q_skip q) (Some n) (q_lean q).

Definition Query_lean (q : Query) : Query :=
  MkQuery (q_conditions q) (q_projection q) (q_options q) (q_sort q)
          (q_skip q) (q_limit q) true.

(** What a facade operation hands to the model it resolved. *)
Inductive call :=
| InsertMany (docs : list object)
| Save (doc : object)
| UpdateOne (query update : object) (options : option object)
| UpdateMany (query update : object) (options : option object)
| Exec (q : Query)
| CountDocuments (query : object)
| EstimatedDocumentCount.

(** The calls that leave the repository during model resolution. *)
Inductive effect :=
| NewSchema (sid : nat) (def : schema_definition) (opts : schema_options)
| SchemaIndex (sid : nat) (fields : list (string * Z)) (opts : index_options)
| ServerModel (name : string) (sid : nat) (collection : string)
| SetTimeout (tid : nat) (ms : Z)
| ClearTimeout (tid : nat).

(** A pending timeout: when it is due and the collection name its
    callback closes over. *)
Record task := Task { due : Z; owner : string }.

(** The fields of an instance, as the constructor stores them. *)
Record instance := MkInstance {
  tenantId : option string;
  collectionName : string;
  schemaModel : schema_definition;
  index : option (list (string * index_options))
}.

(** [data: CM | Array<CM>] *)
Inductive payload := One (r : object) | Many (rs : list object).

Definition TTL : Z := 30 * 60 * 1000.

Definition schema_defaults : schema_options := SchemaOptions false false true true.

Section WithDriver.

Context {D H : Type} `{!Driver D H}.

(** An entry of [global.tenantDBModel]. *)
Record entry := Entry { data : H; timer : nat }.

(** The process: the registry, the runtime's pending timeouts and
    clock, the driver connection, the identifier generator, and the
    trace of calls made so far. *)
Record global := Global {
  tenantDBModel : gmap string entry;
  timers : gmap nat task;
  next_timer : nat;
  next_schema : nat;
  now : Z;
  connection : D;
  objectid : ObjectId.generator;
  trace : list effect
}.

Definition M (A : Type) : Type := global → A * global.

Definition ret {A} (a : A) : M A := fun g => (a, g).

Definition bind {A B} (c : M A) (k : A → M B) : M B :=
  fun g => let (a, g1) := c g in k a g1.

#[local] Notation "'let*' x ':=' c 'in' k" := (bind c (fun x => k))
  (at level 10, x name, c at level 100, k at level 200).

Definition emit (e : effect) (g : global) : global :=
  Global (tenantDBModel g) (timers g) (next_timer g) (next_schema g) (now g)
         (connection g) (objectid g) (trace g ++ [e]).

(** [new mongodb.schema(def, opts)] *)
Definition new_schema (def : schema_definition) (opts : schema_options) : M schema :=
  fun g =>
    let sid := next_schema g in
    (Schema sid def opts [],
     emit (NewSchema sid def opts)
       (Global (tenantDBModel g) (timers g) (next_timer g) (S sid) (now g)
               (connection g) (objectid g) (trace g))).

(** [_schema.index(fields, opts)] *)
Definition schema_index (fields : list (string * Z)) (opts : index_options)
    (s : schema) : M schema :=
  fun g =>
    (Schema (schema_id s) (definition s) (options s) (indexes s ++ [(fields, opts)]),
     emit (SchemaIndex (schema_id s) fields opts) g).

(** [for (const key in this.index) _schema.index({ [key]: 1 }, this.index[key])] *)
Fixpoint apply_indexes (idx : list (string * index_options)) (s : schema) : M schema :=
  match idx with
  | [] => ret s
  | (key, opts) :: rest =>
      bind (schema_index [(key, 1)] opts s) (apply_indexes rest)
  end.

(** [mongodb.server.model(name, schema, collection)] *)
Definition connection_model (name : string) (s : schema) (collection : string) : M H :=
  fun g =>
    let (h, d) := server_model name s collection (connection g) in
    (h,
     emit (ServerModel name (schema_id s) collection)
       (Global (tenantDBModel g) (timers g) (next_timer g) (next_schema g) (now g)
               d (objectid g) (trace g))).

(** [setTimeout(callback, ms)], the callback being the expiry of [name]. *)
Definition setTimeout (name : string) (ms : Z) : M nat :=
  fun g =>
    let tid := next_timer g in
    (tid,
     emit (SetTimeout tid ms)
       (Global (tenantDBModel g) (<[tid := Task (now g + ms) name]> (timers g))
               (S tid) (next_schema g) (now g) (connection g) (objectid g) (trace g))).

Definition clearTimeout (tid : nat) (g : global) : global :=
  emit (ClearTimeout tid)
    (Global (tenantDBModel g) (delete tid (timers g)) (next_timer g) (next_schema g)
            (now g) (connection g) (objectid g) (trace g)).

Definition registry_set (name : string) (e : entry) (g : global) : global :=
  Global (<[name := e]> (tenantDBModel g)) (timers g) (next_timer g) (next_schema g)
         (now g) (connection g) (objectid g) (trace g).

Definition registry_delete (name : string) (g : global) : global :=
  Global (delete name (tenantDBModel g)) (timers g) (next_timer g) (next_schema g)
         (now g) (connection g) (objectid g) (trace g).

Definition tenant_value (t : option string) : value :=
  match t with Some s => VStr s | None => VUndefined end.

(** [private get model()] *)
Definition model (this : instance) : M H :=
  fun g =>
    match tenantDBModel g !! collectionName this with
    | Some e => (data e, g)
    | None =>
        let (_schema0, g1) := new_schema (schemaModel this) schema_defaults g in
        let (_schema, g2) :=
          match index this with
          | Some idx => apply_indexes idx _schema0 g1
          | None => (_schema0, g1)
          end in
        let (m, g3) :=
          connection_model (collectionName this) _schema (collectionName this) g2 in
        if negb (truthy (tenant_value (tenantId this))) then (m, g3)
        else
          let (tid, g4) := setTimeout (collectionName this) TTL g3 in
          let g5 := registry_set (collectionName this) (Entry m tid) g4 in
          match tenantDBModel g5 !! collectionName this with
          | Some e => (data e, g5)
          | None => (m, g5)
          end
    end.

(** The callback handed to [setTimeout] by [model]:
    [clearTimeout(global.tenantDBModel[name].timer); delete global.tenantDBModel[name]].
    Reading [.timer] of a missing entry throws; that is [None]. *)
Definition expire (name : string) (g : global) : option global :=
  match tenantDBModel g !! name with
  | Some e => Some (registry_delete name (clearTimeout (timer e) g))
  | None => None
  end.

(** The runtime taking a due timeout off its queue. *)
Definition dequeue (tid : nat) (g : global) : global :=
  Global (tenantDBModel g) (delete tid (timers g)) (next_timer g) (next_schema g)
         (now g) (connection g) (objectid g) (trace g).

Definition advance (dt : Z) (g : global) : global :=
  Global (tenantDBModel g) (timers g) (next_timer g) (next_schema g)
         (now g + dt) (connection g) (objectid g) (trace g).

(** [new Types.ObjectId().toString()] *)
Definition new_ObjectId_toString : M string :=
  fun g =>
    let (oid, gen) := ObjectId.generate (objectid g) in
    (ObjectId.toString oid,
     Global (tenantDBModel g) (timers g) (next_timer g) (next_schema g) (now g)
            (connection g) gen (trace g)).

(** [typeof r._id !== 'string' || typeof r._id === 'string' && r._id?.trim() === ''] *)
Definition lacks_id (r : object) : bool :=
  let _id := get r "_id" in
  negb (is_string _id)
  || (is_string _id
      && match _id with VStr s => String.eqb (trim s) "" | _ => false end).

(** [{ ...r, _id: s }] *)
Definition with_id (r : object) (s : string) : object := <["_id" := VStr s]> r.

(** The loop of [id] over an array: a record is pushed, with a new
    identifier, only inside the [if]. *)
Fixpoint id_each (data : list object) : M (list object) :=
  match data with
  | [] => ret []
  | r :: rest =>
      if lacks_id r then
        let* s := new_ObjectId_toString in
        let* result := id_each rest in
        ret (with_id r s :: result)
      else id_each rest
  end.

(** [private id(data)] *)
Definition id (data : payload) : M (list object) :=
  match data with
  | Many rs => id_each rs
  | One r =>
      let* s := new_ObjectId_toString in
      ret [with_id r s]
  end.

(** A call on the model an operation resolved. *)
Record invocation := Invoke { target : H; request : call }.

(** [async create(data)] *)
Definition create (this : instance) (data : payload) : M invocation :=
  match data with
  | Many _ =>
      let* m := model this in
      let* docs := id data in
      ret (Invoke m (InsertMany docs))
  | One _ =>
      let* m := model this in
      let* docs := id data in
      ret (Invoke m (Save (default ∅ (docs !! 0%nat))))
  end.

(** [async updateOne(query, update, options)] *)
Definition updateOne (this : instance) (query update : object)
    (options : option object) : M invocation :=
  let* m := model this in
  ret (Invoke m (UpdateOne query update options)).

(** [async upsertOne(query, update, options)] *)
Definition upsertOne (this : instance) (query update : object)
    (options : option object) : M invocation :=
  updateOne this query update (Some (<["upsert" := VBool true]> (spread options))).

(** [async updateMany(query, update, options)] *)
Definition updateMany (this : instance) (query update : object)
    (options : option object) : M invocation :=
  let* m := model this in
  ret (Invoke m (UpdateMany query update options)).

(** [async upsertMany(query, update, options)] *)
Definition upsertMany (this : instance) (query update : object)
    (options : option object) : M invocation :=
  updateMany this query update (Some (<["upsert" := VBool true]> (spread options))).

(** [skip || 0] *)
Definition number_or (n d : number) : number := if number_truthy n then n else d.

(** [async paging(query, limit, skip, sort, options)] *)
Definition paging (this : instance) (query : object) (limit skip : number)
    (sort : option sort_spec) (options : option object) : M invocation :=
  let* m := model this in
  ret (Invoke m
         (Exec (Query_lean
                  (Query_limit limit
                     (Query_skip (number_or skip (Int 0))
                        (Query_sort sort (Model_find query VNull options))))))).

(** [async count(query?)]: a query that is given is an object, and an
    object is truthy. *)
Definition count (this : instance) (query : option object) : M invocation :=
  match query with
  | Some q =>
      let* m := model this in
      ret (Invoke m (CountDocuments q))
  | None =>
      let* m := model this in
      ret (Invoke m EstimatedDocumentCount)
  end.

End WithDriver.

Arguments entry : clear implicits.
Arguments global : clear implicits.
Arguments invocation : clear implicits.

End MongoBase.

Import MongoBase.

(** ** The database engine behind a model

    The engine is outside the repository.  [Stages] is the meaning it
    gives to the parts of a query; [reference] is the usual one, over a
    collection held as a list of documents, and is what the examples run
    on. *)

Module Engine.

Class Stages := {
  matches : object → object → bool;
  sort_stage : sort_spec → list object → list object;
  skip_stage : number → list object → option (list object);
  limit_stage : number → list object → option (list object)
}.

(** A query runs as: select, order, skip, limit, on the sort, skip and
    limit the builder has set (the options bag has been applied there).  A
    stage may reject its argument; then there is no result. *)
Definition exec `{Stages} (q : Query) (docs : list object) : option (list object) :=
  let found := List.filter (matches (q_conditions q)) docs in
  let sorted := match q_sort q with [] => found | s => sort_stage s found end in
  match match q_skip q with Some n => skip_stage n sorted | None => Some sorted end with
  | Some skipped =>
      match q_limit q with Some n => limit_stage n skipped | None => Some skipped end
  | None => None
  end.

(** Every field of the filter is in the document with that value. *)
Definition equal_fields (q d : object) : bool :=
  map_fold (λ k v acc, acc && bool_decide (d !! k = Some v)) true q.

Definition rank (v : value) : Z :=
  match v with
  | VUndefined | VNull => 0
  | VNum _ | VNaN => 1
  | VStr _ => 2
  | VBool _ => 3
  end.

Definition value_leb (a b : value) : bool :=
  match a, b with
  | VNum x, VNum y => (x <=? y)%Z
  | VStr x, VStr y => String.leb x y
  | VBool x, VBool y => implb x y
  | _, _ => (rank a <=? rank b)%Z
  end.

Definition upward (d : direction) : bool :=
  match d with
  | asc | ascending | plus_one => true
  | desc | descending | minus_one => false
  end.

Fixpoint doc_leb (s : sort_spec) (a b : object) : bool :=
  match s with
  | [] => true
  | (k, d) :: rest =>
      let x := get a k in
      let y := get b k in
      if value_leb x y && value_leb y x then doc_leb rest a b
      else if upward d then value_leb x y else value_leb y x
  end.

Fixpoint insert_by (leb : object → object → bool) (x : object) (l : list object) :=
  match l with
  | [] => [x]
  | y :: rest => if leb x y then x :: l else y :: insert_by leb x rest
  end.

Definition sort_by (leb : object → object → bool) (l : list object) : list object :=
  fold_right (insert_by leb) [] l.

(** The database's stages: a skip must not be negative; a limit of 0 is
    no limit and a negative one counts as its absolute value; a skip or a
    limit that is not a number is rejected. *)
#[global] Instance reference : Stages := {|
  matches := equal_fields;
  sort_stage := λ s, sort_by (doc_leb s);
  skip_stage := λ n l,
    match n with
    | Int z => if (z <? 0)%Z then None else Some (drop (Z.to_nat z) l)
    | NaN => None
    end;
  limit_stage := λ n l,
    match n with
    | Int z => if (z =? 0)%Z then Some l else Some (take (Z.to_nat (Z.abs z)) l)
    | NaN => None
    end
|}.

(** The result of an update, as [updateOne] and [updateMany] type it. *)
Record update_result := UpdateResult {
  acknowledged : bool;
  modifiedCount : Z;
  upsertedId : value;
  upsertedCount : Z;
  matchedCount : Z
}.

Record store := Store { docs : list object; ids : ObjectId.generator }.

(** The update sets fields: those of [u] replace those of the document. *)
Fixpoint update_first (q u : object) (l : list object) : option (list object * bool) :=
  match l with
  | [] => None
  | d :: rest =>
      if equal_fields q d then Some ((u ∪ d) :: rest, bool_decide (u ∪ d ≠ d))
      else match update_first q u rest with
           | Some (l', changed) => Some (d :: l', changed)
           | None => None
           end
  end.

(** An update that matches nothing inserts when [upsert] is set: the new
    document is the filter's fields overridden by the update's, with an
    identifier of the engine's making if it has none. *)
Definition upsert_insert (q u : object) (s : store) : update_result * store :=
  let doc := u ∪ q in
  match doc !! "_id" with
  | Some v => (UpdateResult true 0 v 1 0, Store (docs s ++ [doc]) (ids s))
  | None =>
      let (oid, gen) := ObjectId.generate (ids s) in
      let v := VStr (ObjectId.toString oid) in
      (UpdateResult true 0 v 1 0, Store (docs s ++ [<["_id" := v]> doc]) gen)
  end.

Definition update_one (q u : object) (opts : option object) (s : store)
    : update_result * store :=
  match update_first q u (docs s) with
  | Some (l, changed) =>
      (UpdateResult true (if changed then 1 else 0) VNull 0 1, Store l (ids s))
  | None =>
      if truthy (get (spread opts) "upsert") then upsert_insert q u s
      else (UpdateResult true 0 VNull 0 0, s)
  end.

Definition update_many (q u : object) (opts : option object) (s : store)
    : update_result * store :=
  let hit := List.filter (equal_fields q) (docs s) in
  match hit with
  | [] =>
      if truthy (get (spread opts) "upsert") then upsert_insert q u s
      else (UpdateResult true 0 VNull 0 0, s)
  | _ =>
      (UpdateResult true
         (Z.of_nat (length (List.filter (λ d, bool_decide (u ∪ d ≠ d)) hit)))
         VNull 0 (Z.of_nat (length hit)),
       Store (map (λ d, if equal_fields q d then u ∪ d else d) (docs s)) (ids s))
  end.

Inductive reply :=
| Updated (r : update_result)
| Counted (n : Z)
| Found (l : list object)
| Inserted (l : list object)
| Rejected.

(** What a call on a model does to its collection. *)
Definition perform (c : call) (s : store) : reply * store :=
  match c with
  | InsertMany l => (Inserted l, Store (docs s ++ l) (ids s))
  | Save d => (Inserted [d], Store (docs s ++ [d]) (ids s))
  | UpdateOne q u o => let (r, s') := update_one q u o s in (Updated r, s')
  | UpdateMany q u o => let (r, s') := update_many q u o s in (Updated r, s')
  | Exec q =>
      (match exec q (docs s) with Some l => Found l | None => Rejected end, s)
  | CountDocuments q =>
      (Counted (Z.of_nat (length (List.filter (equal_fields q) (docs s)))), s)
  | EstimatedDocumentCount => (Counted (Z.of_nat (length (docs s))), s)
  end.

End Engine.

(** ** The connection manager: [tool/mongodb.ts] *)

Module MongoConnect.

Definition RECONNET_TIME : Z := 5000.

Inductive severity := Info | Error | Fatal.

(** What [mongoconnect] and its callback do to the outside. *)
Inductive event :=
| Log (channel : string) (level : severity) (message : string)
| Connect (address : string)
| SetTimeout (ms : Z).

#[global] Instance severity_eq_dec : EqDecision severity.
Proof. solve_decision. Defined.

#[global] Instance event_eq_dec : EqDecision event.
Proof. solve_decision. Defined.

(** How a function body ends. *)
Inductive completion := Returned | Thrown (error : string).

(** The configuration read by [getENV('MONGO_URL')], the clock, the
    due times of the timeouts waiting to call [mongoconnect], and the
    events so far. *)
Record world := World {
  MONGO_URL : option string;
  clock : Z;
  pending : list Z;
  events : list event
}.

Definition emit (e : event) (w : world) : world :=
  World (MONGO_URL w) (clock w) (pending w) (events w ++ [e]).

Definition address_value (a : option string) : value :=
  match a with Some s => VStr s | None => VUndefined end.

(** [`${a}`] *)
Definition interpolate (a : option string) : string :=
  match a with Some s => s | None => "undefined" end.

(** [setTimeout(mongoconnect, ms)] *)
Definition setTimeout (ms : Z) (w : world) : world :=
  emit (SetTimeout ms) (World (MONGO_URL w) (clock w) (pending w ++ [clock w + ms]) (events w)).

(** [const mongoconnect = () => ...], up to the point where the driver
    holds the callback.  An address that passes the guard is a string, and
    it is that string that goes to [mongoose.connect]. *)
Definition mongoconnect (w : world) : completion * world :=
  let mongodbAddress := MONGO_URL w in
  if negb (truthy (address_value mongodbAddress)) then
    (Returned,
     emit (Log "mongodb" Error
             ("mongodb connect address is required but get " ++ interpolate mongodbAddress)) w)
  else
    (Returned, emit (Connect (interpolate mongodbAddress)) w).

(** [error => { if (error) { ...error(error); setTimeout(mongoconnect, RECONNET_TIME); } }] *)
Definition callback (error : option string) (w : world) : completion * world :=
  match error with
  | Some e => (Returned, setTimeout RECONNET_TIME (emit (Log "mongodb" Error e) w))
  | None => (Returned, w)
  end.

Definition tick (dt : Z) (w : world) : world :=
  World (MONGO_URL w) (clock w + dt) (pending w) (events w).

(** The runtime: when the oldest timeout is due it is taken off the
    queue and [mongoconnect] runs at that time. *)
Definition run_timeout (w : world) : world :=
  match pending w with
  | [] => w
  | t :: rest => snd (mongoconnect (World (MONGO_URL w) (Z.max (clock w) t) rest (events w)))
  end.

(** An attempt that fails: the driver calls back with [e] after
    [latency] ms, and the timeout set by the callback then runs. *)
Definition failed_attempt (f : string * Z) (w : world) : world :=
  run_timeout (snd (callback (Some (fst f)) (tick (snd f) w))).

Definition failed_attempts (fs : list (string * Z)) (w : world) : world :=
  fold_left (λ w f, failed_attempt f w) fs w.

End MongoConnect.

(** ** The process over time

    What can happen to the state between two reads of it: a facade
    operation resolves its model (and [create] draws identifiers), the
    clock moves, or the runtime runs the callback of a timeout that is due. *)

Module Process.

Section WithDriver.

Context {D H : Type} `{!Driver D H}.

Definition initial (d : D) (gen : ObjectId.generator) (t : Z) : global D H :=
  Global ∅ ∅ 0 0 t d gen [].

Inductive step : global D H → global D H → Prop :=
| step_model this g :
    step g (snd (model this g))
| step_create this data g :
    step g (snd (create this data g))
| step_tick (dt : Z) g :
    (0 ≤ dt)%Z → step g (advance dt g)
| step_expire tid t g g' :
    timers g !! tid = Some t →
    (due t ≤ now g)%Z →
    expire (owner t) (dequeue tid g) = Some g' →
    step g g'.

Inductive reachable : global D H → Prop :=
| reach_initial d gen t : reachable (initial d gen t)
| reach_step g g' : reachable g → step g g' → reachable g'.

(** Entries and pending timeouts go in pairs: the timeout recorded in
    an entry is pending and closes over the entry's name, and every
    pending timeout is the one recorded under its name. *)
Definition paired (g : global D H) : Prop :=
  (∀ name e, tenantDBModel g !! name = Some e →
     ∃ t, timers g !! timer e = Some t ∧ owner t = name)
  ∧ (∀ tid t, timers g !! tid = Some t →
     ∃ e, tenantDBModel g !! owner t = Some e ∧ timer e = tid)
  ∧ (∀ tid t, timers g !! tid = Some t → (tid < next_timer g)%nat).

End WithDriver.

(** The schema [model] has built when it reaches [server.model]. *)
Definition built_schema (this : instance) (sid : nat) : schema :=
  Schema sid (schemaModel this) schema_defaults
         (map (λ ko : string * index_options, ([(fst ko, 1)], snd ko))
              (default [] (index this))).

Definition index_effects (sid : nat) (idx : list (string * index_options)) : list effect :=
  map (λ ko : string * index_options, SchemaIndex sid [(fst ko, 1)] (snd ko)) idx.

(** The calls of one resolution that misses the registry, before any
    timeout is set. *)
Definition resolution_effects (this : instance) (sid : nat) : list effect :=
  NewSchema sid (schemaModel this) schema_defaults
  :: index_effects sid (default [] (index this))
  ++ [ServerModel (collectionName this) sid (collectionName this)].

Definition is_NewSchema (e : effect) : bool :=
  match e with NewSchema _ _ _ => true | _ => false end.

(** How many schemas a trace has compiled. *)
Definition compilations (tr : list effect) : nat :=
  length (List.filter is_NewSchema tr).

(** The next [n] identifiers of a generator. *)
Fixpoint identifiers (n : nat) (gen : ObjectId.generator) : list string :=
  match n with
  | O => []
  | S k =>
      let (oid, gen') := ObjectId.generate gen in
      ObjectId.toString oid :: identifiers k gen'
  end.

(** The generator after [n] identifiers. *)
Fixpoint generator_after (n : nat) (gen : ObjectId.generator) : ObjectId.generator :=
  match n with
  | O => gen
  | S k => generator_after k (snd (ObjectId.generate gen))
  end.

(** A blank string, as [lacks_id] sees it; a given identifier is a
    string that is not blank. *)
Definition blank (s : string) : Prop := trim s = "".

Definition given_id (r : object) (s : string) : Prop :=
  r !! "_id" = Some (VStr s) ∧ ¬ blank s.

End Process.

Import Process.

(** ** Sample data

    Two instances, a tenant-less one and a tenant one, a starting state on
    the compiling driver, and a few records. *)

Module Sample.

Definition users : instance :=
  MkInstance None "users" [("name", "String")]
           (Some [("name", <["unique" := VBool true]> ∅)]).

Definition orders : instance :=
  MkInstance (Some "t1") "t1_orders" [("total", "Number")]
           (Some [("total", ∅); ("day", ∅)]).

Definition start : global registry compiled :=
  initial (Registry ∅ 0) (ObjectId.Generator 1700000000 11259375 41) 0.

(** [{ _id: 'u-1', name: 'ann' }] *)
Definition ann : object := <["_id" := VStr "u-1"]> (<["name" := VStr "ann"]> ∅).

(** [{ name: 'bob' }] *)
Definition bob : object := <["name" := VStr "bob"]> ∅.

(** [{ _id: '  ', name: 'cat' }] *)
Definition cat : object := <["_id" := VStr "  "]> (<["name" := VStr "cat"]> ∅).

(** [{ _id: 7, name: 'dan' }] *)
Definition dan : object := <["_id" := VNum 7]> (<["name" := VStr "dan"]> ∅).

(** [{ name: 'a', z: 1 }] and [{ name: 'b', z: 2 }] *)
Definition low : object := <["name" := VStr "a"]> (<["z" := VNum 1]> ∅).

Definition high : object := <["name" := VStr "b"]> (<["z" := VNum 2]> ∅).

End Sample.

(** ** The other operations of MongoBase

    [find] shares the query object of [paging]; the delete, single-read
    and aggregate operations hand the model a request of their own. *)

Module Facade.

Inductive request :=
| DeleteOne (query : object)
| DeleteMany (query : object)
| FindOne (conditions : object) (projection : value) (options : option object) (lean : bool)
| FindById (_id : string) (projection : value) (options : option object) (lean : bool)
| AggregateOf.

Section WithDriver.

Context {D H : Type} `{!Driver D H}.

(** A request of this module on the model an operation resolved. *)
Record action := Act { model_of : H; request_of : request }.

(** [query || {}]: a query that is given is an object, and an object is
    truthy. *)
Definition query_or_empty (query : option object) : object :=
  match query with Some q => q | None => ∅ end.

(** [async find(query?, options?)] *)
Definition find (this : instance) (query : option object)
    (options : option object) : M (invocation H) :=
  bind (model this) (fun m =>
  ret (Invoke m (Exec (Query_lean (Model_find (query_or_empty query) VNull options))))).

(** [async findOne(query, options?)] *)
Definition findOne (this : instance) (query : object)
    (options : option object) : M action :=
  bind (model this) (fun m => ret (Act m (FindOne query VNull options true))).

(** [async findById(_id, options?)] *)
Definition findById (this : instance) (_id : string)
    (options : option object) : M action :=
  bind (model this) (fun m => ret (Act m (FindById _id VNull options true))).

(** [async removeOne(query)] *)
Definition removeOne (this : instance) (query : object) : M action :=
  bind (model this) (fun m => ret (Act m (DeleteOne query))).

(** [async removeMany(query)] *)
Definition removeMany (this : instance) (query : object) : M action :=
  bind (model this) (fun m => ret (Act m (DeleteMany query))).

(** [get aggregate()] *)
Definition aggregate (this : instance) : M action :=
  bind (model this) (fun m => ret (Act m AggregateOf)).

End WithDriver.

Arguments action : clear implicits.

End Facade.

(** ** The MongoDB class of [tool/mongodb.ts]

    The constructor registers three listeners on [mongoose.connection] and
    calls [init], which calls [mongoconnect].  The connection is an event
    emitter: a signal runs the listeners registered for it, in the order
    of registration, and a [once] listener is removed when it runs. *)

Module MongoDB.

Inductive signal := connected | disconnected | reconnected.

#[global] Instance signal_eq_dec : EqDecision signal.
Proof. solve_decision. Defined.

(** The three arrow functions of the constructor. *)
Inductive reaction := connected_info | disconnected_fatal | reconnected_info.

#[global] Instance reaction_eq_dec : EqDecision reaction.
Proof. solve_decision. Defined.

Record listener := Listener {
  signal_of : signal;
  once : bool;
  reaction_of : reaction
}.

Record service := Service {
  world_of : MongoConnect.world;
  listeners : list listener
}.

(** [`${RECONNET_TIME}`] *)
Definition RECONNET_TIME_text : string := "5000".

Definition react (r : reaction) (w : MongoConnect.world) : MongoConnect.world :=
  match r with
  | connected_info =>
      MongoConnect.emit
        (MongoConnect.Log "mongodb" MongoConnect.Info
           ("mongodb connected on " ++ MongoConnect.interpolate (MongoConnect.MONGO_URL w)
            ++ " success and ready to use.")) w
  | disconnected_fatal =>
      MongoConnect.emit
        (MongoConnect.Log "mongodb" MongoConnect.Fatal
           ("disconnected! connection is break off. it will be retried in "
            ++ RECONNET_TIME_text
            ++ " ms after every reconnect until success unless process exit.")) w
  | reconnected_info =>
      MongoConnect.emit
        (MongoConnect.Log "mongodb" MongoConnect.Info
           ("reconnect on " ++ MongoConnect.interpolate (MongoConnect.MONGO_URL w)
            ++ " success and ready to use.")) w
  end.

(** [this.server.once(signal, reaction)] *)
Definition server_once (s : signal) (r : reaction) (v : service) : service :=
  Service (world_of v) (listeners v ++ [Listener s true r]).

(** [this.server.on(signal, reaction)] *)
Definition server_on (s : signal) (r : reaction) (v : service) : service :=
  Service (world_of v) (listeners v ++ [Listener s false r]).

Definition hears (s : signal) (l : listener) : bool := bool_decide (signal_of l = s).

(** The connection emitting [s]. *)
Definition signalled (s : signal) (v : service) : service :=
  Service
    (fold_left (λ w l, react (reaction_of l) w) (List.filter (hears s) (listeners v))
               (world_of v))
    (List.filter (λ l, negb (hears s l && once l)) (listeners v)).

(** [private async init()]: the call of [mongoconnect] is made at once. *)
Definition init (v : service) : service :=
  Service (snd (MongoConnect.mongoconnect (world_of v))) (listeners v).

(** [constructor()] *)
Definition constructor (w : MongoConnect.world) : service :=
  init
    (server_on reconnected reconnected_info
       (server_on disconnected disconnected_fatal
          (server_once connected connected_info (Service w [])))).

(** The listeners the constructor leaves, while the [once] one is still
    there ([true]) and after it has run ([false]). *)
Definition registered (armed : bool) : list listener :=
  (if armed then [Listener connected true connected_info] else [])
  ++ [Listener disconnected false disconnected_fatal;
      Listener reconnected false reconnected_info].

Definition connected_message (a : option string) : string :=
  "mongodb connected on " ++ MongoConnect.interpolate a ++ " success and ready to use.".

Definition disconnected_message : string :=
  "disconnected! connection is break off. it will be retried in " ++ RECONNET_TIME_text
  ++ " ms after every reconnect until success unless process exit.".

Definition reconnected_message (a : option string) : string :=
  "reconnect on " ++ MongoConnect.interpolate a ++ " success and ready to use.".

(** [get isUseful()], on the [readyState] of the connection. *)
Definition isUseful (readyState : Z) : bool := (readyState =? 1)%Z.

(** How often a message is in the log. *)
Definition logged (level : MongoConnect.severity) (message : string)
    (w : MongoConnect.world) : nat :=
  length (List.filter
            (λ ev, bool_decide (ev = MongoConnect.Log "mongodb" level message))
            (MongoConnect.events w)).

Definition attempts (w : MongoConnect.world) : nat :=
  length (List.filter
            (λ ev, match ev with MongoConnect.Connect _ => true | _ => false end)
            (MongoConnect.events w)).

Definition tally (b : bool) : nat := if b then 1%nat else 0%nat.

Definition occurrences (s : signal) (ss : list signal) : nat :=
  length (List.filter (λ x, bool_decide (x = s)) ss).

End MongoDB.

(** ** Runs of the process, and what a trace counts *)

Module Runs.

Section WithDriver.

Context {D H : Type} `{!Driver D H}.

Inductive steps : global D H → global D H → Prop :=
| steps_here g : steps g g
| steps_more g g1 g2 : steps g g1 → step g1 g2 → steps g g2.

(** The state of a timeout [tid] set at time [since] for the entry [e]
    under [name]: either it is still pending, unchanged, with its entry in
    place, or it is gone and its due time has passed. *)
Definition deadline_kept (since : Z) (tid : nat) (t : task) (name : string)
    (e : entry H) (g : global D H) : Prop :=
  (since ≤ now g)%Z
  ∧ (tid < next_timer g)%nat
  ∧ ((timers g !! tid = Some t ∧ tenantDBModel g !! name = Some e)
     ∨ (timers g !! tid = None ∧ (due t ≤ now g)%Z)).

End WithDriver.

Definition is_SetTimeout (e : effect) : bool :=
  match e with MongoBase.SetTimeout _ _ => true | _ => false end.

Definition is_ClearTimeout (e : effect) : bool :=
  match e with ClearTimeout _ => true | _ => false end.

Definition timeouts_set (tr : list effect) : nat := length (List.filter is_SetTimeout tr).

Definition timeouts_cleared (tr : list effect) : nat :=
  length (List.filter is_ClearTimeout tr).

(** A call as every resolution makes it: the schema options of the
    getter, one ascending field per index, the collection named like the
    model, and a timeout of 30 minutes. *)
Definition as_resolution_makes (e : effect) : bool :=
  match e with
  | NewSchema _ _ o =>
      negb (opt__id o) && negb (opt_versionKey o) && opt_createdAt o && opt_updatedAt o
  | SchemaIndex _ [(_, 1%Z)] _ => true
  | SchemaIndex _ _ _ => false
  | ServerModel name _ collection => String.eqb name collection
  | MongoBase.SetTimeout _ ms => (ms =? 1800000)%Z
  | ClearTimeout _ => true
  end.

(** The configuration changing between two reads of it. *)
Definition reconfigure (a : option string) (w : MongoConnect.world) : MongoConnect.world :=
  MongoConnect.World a (MongoConnect.clock w) (MongoConnect.pending w) (MongoConnect.events w).

(** More samples: a second tenant, and an instance that shares the name of
    [Sample.orders] with another schema and no tenant. *)
Definition invoices : instance :=
  MkInstance (Some "t2") "t2_orders" [("total", "Number")] None.

Definition orders_again : instance :=
  MkInstance None "t1_orders" [("note", "String")] (Some [("note", ∅)]).

Definition blank_tenant : instance :=
  MkInstance (Some "") "audit" [("line", "String")] None.

End Runs.

Import Runs.

(** * Properties *)

(** ** Identifiers *)

Lemma hex_length n z : String.length (ObjectId.hex n z) = n.
Proof. induction n as [|n IH]; simpl; [reflexivity | now rewrite IH]. Qed.

Lemma hex_digit_is_hex d : ObjectId.is_hex (ObjectId.hex_digit d) = true.
Proof.
  destruct d as [|p|p]; [reflexivity| |reflexivity].
  do 4 (try destruct p as [p|p|]); reflexivity.
Qed.

Lemma hex_all_hex n z : ObjectId.all_hex (ObjectId.hex n z) = true.
Proof.
  induction n as [|n IH]; simpl; [reflexivity|].
  now rewrite hex_digit_is_hex, IH.
Qed.

Lemma is_hex_not_space c : ObjectId.is_hex c = true → is_space c = false.
Proof.
  destruct c as [[] [] [] [] [] [] [] []]; vm_compute; congruence.
Qed.

Lemma trim_head_kept c rest : is_space c = false → trim (String c rest) ≠ "".
Proof.
  intros Hc. unfold trim. simpl. rewrite Hc. simpl.
  destruct (trim_end rest); [rewrite Hc|]; discriminate.
Qed.

Lemma hex_step n z :
  ObjectId.hex (S n) z
  = String (ObjectId.hex_digit (Z.land (Z.shiftr z (4 * Z.of_nat n)) 15)) (ObjectId.hex n z).
Proof. reflexivity. Qed.

Lemma toString_length oid : String.length (ObjectId.toString oid) = 24%nat.
Proof. apply hex_length. Qed.

Lemma toString_all_hex oid : ObjectId.all_hex (ObjectId.toString oid) = true.
Proof. apply hex_all_hex. Qed.

Lemma toString_not_blank oid : ¬ blank (ObjectId.toString oid).
Proof.
  unfold blank, ObjectId.toString. rewrite hex_step.
  apply trim_head_kept, is_hex_not_space, hex_digit_is_hex.
Qed.

(** ** Model resolution *)

Section Resolution.

Context {D H : Type} `{!Driver D H}.

Implicit Types (g : global D H) (this : instance).

Lemma apply_indexes_run idx s g :
  apply_indexes idx s g
  = (Schema (schema_id s) (definition s) (options s)
       (indexes s ++ map (λ ko : string * index_options, ([(fst ko, 1)], snd ko)) idx),
     Global (tenantDBModel g) (timers g) (next_timer g) (next_schema g) (now g)
            (connection g) (objectid g) (trace g ++ index_effects (schema_id s) idx)).
Proof.
  revert s g. induction idx as [|[key opts] rest IH]; intros s g.
  - simpl. unfold ret. rewrite !app_nil_r. now destruct s, g.
  - simpl. unfold bind, schema_index. rewrite IH. simpl.
    now rewrite <- !app_assoc.
Qed.

(** The state and schema when [model], having missed the registry,
    reaches [server.model]. *)
Lemma model_miss this g :
  tenantDBModel g !! collectionName this = None →
  let sid := next_schema g in
  let name := collectionName this in
  let hd := server_model name (built_schema this sid) name (connection g) in
  let tr := (trace g ++ resolution_effects this sid)%list in
  model this g =
    if truthy (tenant_value (tenantId this)) then
      (fst hd,
       Global (<[name := Entry (fst hd) (next_timer g)]> (tenantDBModel g))
              (<[next_timer g := Task (now g + TTL) name]> (timers g))
              (S (next_timer g)) (S sid) (now g) (snd hd) (objectid g)
              (tr ++ [MongoBase.SetTimeout (next_timer g) TTL]))
    else
      (fst hd,
       Global (tenantDBModel g) (timers g) (next_timer g) (S sid) (now g)
              (snd hd) (objectid g) tr).
Proof.
  intros Hmiss. cbv zeta. unfold model. rewrite Hmiss.
  unfold new_schema, emit. simpl.
  assert (Hs : ∀ g1,
    (match index this with
     | Some idx => apply_indexes idx (Schema (next_schema g) (schemaModel this) schema_defaults []) g1
     | None => (Schema (next_schema g) (schemaModel this) schema_defaults [], g1)
     end)
    = (built_schema this (next_schema g),
       Global (tenantDBModel g1) (timers g1) (next_timer g1) (next_schema g1) (now g1)
              (connection g1) (objectid g1)
              (trace g1 ++ index_effects (next_schema g) (default [] (index this))))).
  { intros g1. unfold built_schema. destruct (index this) as [idx|]; simpl.
    - now rewrite apply_indexes_run.
    - rewrite app_nil_r. now destruct g1. }
  rewrite Hs. simpl. unfold connection_model. simpl.
  destruct (server_model _ _ _ _) as [h d]. simpl.
  unfold resolution_effects.
  destruct (truthy (tenant_value (tenantId this))); simpl.
  - unfold registry_set, emit. simpl. rewrite lookup_insert_eq. simpl.
    do 2 f_equal. rewrite <- !app_assoc. simpl. now rewrite <- !app_assoc.
  - unfold emit. simpl. do 2 f_equal. rewrite <- !app_assoc. simpl.
    now rewrite <- ?app_assoc.
Qed.

Lemma model_hit this g e :
  tenantDBModel g !! collectionName this = Some e → model this g = (data e, g).
Proof. intros Hhit. unfold model. now rewrite Hhit. Qed.

Lemma compilations_app tr1 tr2 :
  compilations (tr1 ++ tr2)%list = (compilations tr1 + compilations tr2)%nat.
Proof. unfold compilations. now rewrite List.filter_app, length_app. Qed.

Lemma compilations_index_effects sid idx : compilations (index_effects sid idx) = 0%nat.
Proof. unfold compilations, index_effects. induction idx; simpl; auto. Qed.

Lemma compilations_resolution this sid :
  compilations (resolution_effects this sid) = 1%nat.
Proof.
  unfold resolution_effects.
  change (NewSchema ?a ?b ?c :: ?l) with ([NewSchema a b c] ++ l)%list.
  rewrite !compilations_app, compilations_index_effects. reflexivity.
Qed.

(** Resolution leaves the identifier generator alone. *)
Lemma model_objectid this g : objectid (snd (model this g)) = objectid g.
Proof.
  destruct (tenantDBModel g !! collectionName this) as [e|] eqn:E.
  - now rewrite (model_hit _ _ _ E).
  - rewrite (model_miss _ _ E). now destruct (truthy _).
Qed.

End Resolution.

(** C3. A request for a name that has an entry in the registry returns
    the entry's handle and changes nothing: no schema is compiled, no
    index applied, no timeout set or cleared, and the entry with its timer
    stays as it was. *)
Theorem model_hit_is_silent {D H : Type} `{!Driver D H} (this : instance)
    (g : global D H) (e : entry H) :
  tenantDBModel g !! collectionName this = Some e →
  ∃ g', model this g = (data e, g')
        ∧ g' = g
        ∧ trace g' = trace g
        ∧ timers g' = timers g
        ∧ tenantDBModel g' !! collectionName this = Some e.
Proof.
  intros Hhit. exists g. rewrite (model_hit _ _ _ Hhit). auto.
Qed.

Lemma model_hit_is_silent_witness :
  let g := snd (model Sample.orders Sample.start) in
  let e := Entry (Compiled 0 "t1_orders" (built_schema Sample.orders 0) "t1_orders") 0 in
  tenantDBModel g !! collectionName Sample.orders = Some e
  ∧ ∃ g', model Sample.orders g = (data e, g')
          ∧ g' = g
          ∧ trace g' = trace g
          ∧ timers g' = timers g
          ∧ tenantDBModel g' !! collectionName Sample.orders = Some e.
Proof.
  cbv zeta. split.
  - vm_compute. reflexivity.
  - apply model_hit_is_silent. vm_compute. reflexivity.
Defined.

(** C2, as stated, fails: a tenant-less instance asked twice for its model
    compiles a schema on each request; the registry is written only for
    tenant instances. *)
Lemma tenantless_model_recompiles :
  let first := model Sample.users Sample.start in
  let second := model Sample.users (snd first) in
  tenantId Sample.users = None
  ∧ compilations (trace (snd first)) = 1%nat
  ∧ compilations (trace (snd second)) = 2%nat
  ∧ ¬ (fst first = fst second
       ∧ compilations (trace (snd second)) = compilations (trace (snd first))).
Proof.
  cbv zeta. split; [reflexivity|]. split; [vm_compute; reflexivity|].
  split; [vm_compute; reflexivity|].
  intros [_ Hsame]. vm_compute in Hsame. discriminate.
Qed.

(** C2, amended.  For an instance without a tenant id whose name has no
    entry in the registry, each request compiles a new schema, applies the
    index entries, and returns what [server.model] gives for the name, that
    schema and the name; nothing is stored, so the second request compiles
    again and it is the driver that decides which handle comes back. *)
Theorem tenantless_model_twice {D H : Type} `{!Driver D H} (this : instance)
    (g : global D H) :
  truthy (tenant_value (tenantId this)) = false →
  tenantDBModel g !! collectionName this = None →
  let name := collectionName this in
  let sid := next_schema g in
  ∃ g1 g2,
    model this g
    = (fst (server_model name (built_schema this sid) name (connection g)), g1)
    ∧ model this g1
      = (fst (server_model name (built_schema this (S sid)) name (connection g1)), g2)
    ∧ trace g1 = (trace g ++ resolution_effects this sid)%list
    ∧ trace g2 = (trace g1 ++ resolution_effects this (S sid))%list
    ∧ compilations (trace g2) = S (compilations (trace g1))
    ∧ tenantDBModel g1 = tenantDBModel g
    ∧ tenantDBModel g2 = tenantDBModel g
    ∧ timers g2 = timers g.
Proof.
  intros Hplain Hmiss name sid.
  pose proof (model_miss this g Hmiss) as E1. cbv zeta in E1. rewrite Hplain in E1.
  set (g1 := snd (model this g)).
  assert (Hg1 : tenantDBModel g1 = tenantDBModel g
                ∧ next_schema g1 = S sid
                ∧ timers g1 = timers g
                ∧ trace g1 = (trace g ++ resolution_effects this sid)%list).
  { unfold g1. rewrite E1. simpl. auto. }
  destruct Hg1 as (Hc1 & Hn1 & Ht1 & Htr1).
  assert (Hmiss1 : tenantDBModel g1 !! collectionName this = None) by now rewrite Hc1.
  pose proof (model_miss this g1 Hmiss1) as E2. cbv zeta in E2.
  rewrite Hplain, Hn1 in E2.
  exists g1, (snd (model this g1)). repeat split.
  - unfold g1. rewrite E1. reflexivity.
  - rewrite E2. reflexivity.
  - exact Htr1.
  - rewrite E2. reflexivity.
  - rewrite E2. simpl. rewrite compilations_app, compilations_resolution. lia.
  - exact Hc1.
  - rewrite E2. simpl. exact Hc1.
  - rewrite E2. simpl. exact Ht1.
Qed.

Lemma tenantless_model_twice_witness :
  truthy (tenant_value (tenantId Sample.users)) = false
  ∧ tenantDBModel Sample.start !! collectionName Sample.users = None
  ∧ ∃ g1 g2,
      model Sample.users Sample.start
      = (fst (server_model "users" (built_schema Sample.users 0) "users"
                (connection Sample.start)), g1)
      ∧ model Sample.users g1
        = (fst (server_model "users" (built_schema Sample.users 1) "users"
                  (connection g1)), g2)
      ∧ trace g1 = (trace Sample.start ++ resolution_effects Sample.users 0)%list
      ∧ trace g2 = (trace g1 ++ resolution_effects Sample.users 1)%list
      ∧ compilations (trace g2) = S (compilations (trace g1))
      ∧ tenantDBModel g1 = tenantDBModel Sample.start
      ∧ tenantDBModel g2 = tenantDBModel Sample.start
      ∧ timers g2 = timers Sample.start.
Proof.
  split; [reflexivity|]. split; [reflexivity|].
  apply (tenantless_model_twice Sample.users Sample.start); reflexivity.
Defined.

(** ** Identifier assignment *)

Section Identifiers.

Context {D H : Type} `{!Driver D H}.

Implicit Types (g : global D H) (this : instance).

(** The loop pushes the records that lack an identifier, in order, each
    with the next identifier of the generator, and touches nothing else
    in the state. *)
Lemma id_each_run rs g :
  let n := length (List.filter lacks_id rs) in
  id_each rs g
  = (zip_with with_id (List.filter lacks_id rs) (identifiers n (objectid g)),
     Global (tenantDBModel g) (timers g) (next_timer g) (next_schema g) (now g)
            (connection g) (generator_after n (objectid g)) (trace g)).
Proof.
  cbv zeta. revert g. induction rs as [|r rest IH]; intros g.
  - simpl. unfold ret. now destruct g.
  - simpl. destruct (lacks_id r) eqn:E.
    + unfold bind, new_ObjectId_toString. simpl. rewrite IH. reflexivity.
    + apply IH.
Qed.

Lemma id_one_run r g :
  id (One r) g
  = ([with_id r (ObjectId.toString (fst (ObjectId.generate (objectid g))))],
     Global (tenantDBModel g) (timers g) (next_timer g) (next_schema g) (now g)
            (connection g) (snd (ObjectId.generate (objectid g))) (trace g)).
Proof. reflexivity. Qed.

Lemma with_id_has_id r oid : lacks_id (with_id r (ObjectId.toString oid)) = false.
Proof.
  unfold lacks_id, with_id, get. rewrite lookup_insert_eq.
  cbn [is_string typeof negb orb andb].
  destruct (String.eqb_spec (trim (ObjectId.toString oid)) "") as [Heq|_];
    [|reflexivity].
  exfalso. exact (toString_not_blank oid Heq).
Qed.

(** [id] leaves the registry and the timeouts alone. *)
Lemma id_frame data g :
  tenantDBModel (snd (id data g)) = tenantDBModel g
  ∧ timers (snd (id data g)) = timers g
  ∧ next_timer (snd (id data g)) = next_timer g.
Proof.
  destruct data as [r|rs].
  - rewrite id_one_run. auto.
  - simpl. pose proof (id_each_run rs g) as E. cbv zeta in E. rewrite E. auto.
Qed.

(** The update, paging and count operations change the state by resolving
    their model and in no other way. *)
Lemma operation_state this (q u : object) (o : option object) limit skip sort qo g :
  snd (updateOne this q u o g) = snd (model this g)
  ∧ snd (updateMany this q u o g) = snd (model this g)
  ∧ snd (upsertOne this q u o g) = snd (model this g)
  ∧ snd (upsertMany this q u o g) = snd (model this g)
  ∧ snd (paging this q limit skip sort o g) = snd (model this g)
  ∧ snd (count this qo g) = snd (model this g).
Proof.
  unfold upsertOne, upsertMany, updateOne, updateMany, paging, count, bind, ret.
  destruct qo; destruct (model this g); auto 10.
Qed.

Lemma create_state this data g :
  snd (create this data g) = snd (id data (snd (model this g))).
Proof.
  unfold create. destruct data as [r|rs]; unfold bind at 1;
    destruct (model this g) as [m g1]; unfold bind at 1; cbn [snd].
  - now destruct (id (One r) g1).
  - now destruct (id (Many rs) g1).
Qed.

End Identifiers.

(** ** Entries and their timeouts *)

Section Pairing.

Context {D H : Type} `{!Driver D H}.

Implicit Types (g : global D H) (this : instance).

Lemma paired_frame g g' :
  tenantDBModel g' = tenantDBModel g →
  timers g' = timers g →
  next_timer g' = next_timer g →
  paired g → paired g'.
Proof. unfold paired. intros -> -> ->. auto. Qed.

Lemma paired_initial (d : D) gen t : paired (initial d gen t : global D H).
Proof.
  unfold paired, initial. simpl. repeat split; intros *; rewrite lookup_empty; discriminate.
Qed.

Lemma paired_model this g : paired g → paired (snd (model this g)).
Proof.
  intros (I1 & I2 & I3).
  destruct (tenantDBModel g !! collectionName this) as [e|] eqn:E.
  { rewrite (model_hit _ _ _ E). now repeat split. }
  rewrite (model_miss _ _ E). destruct (truthy _); [|now repeat split].
  simpl. set (name := collectionName this). fold name in E.
  repeat split; simpl.
  - intros name' e' Hl. destruct (decide (name' = name)) as [->|Hne].
    + rewrite lookup_insert_eq in Hl. injection Hl as <-. simpl.
      rewrite lookup_insert_eq. eauto.
    + rewrite lookup_insert_ne in Hl by congruence.
      destruct (I1 _ _ Hl) as (t & Ht & Ho).
      exists t. split; [|exact Ho].
      rewrite lookup_insert_ne; [exact Ht|]. apply I3 in Ht. lia.
  - intros tid t Hl. destruct (decide (tid = next_timer g)) as [->|Hne].
    + rewrite lookup_insert_eq in Hl. injection Hl as <-. simpl.
      rewrite lookup_insert_eq. eauto.
    + rewrite lookup_insert_ne in Hl by congruence.
      destruct (I2 _ _ Hl) as (e & He & Ht).
      exists e. split; [|exact Ht].
      rewrite lookup_insert_ne; [exact He|]. intros Heq. rewrite <- Heq in He. congruence.
  - intros tid t Hl. destruct (decide (tid = next_timer g)) as [->|Hne]; [lia|].
    rewrite lookup_insert_ne in Hl by congruence. apply I3 in Hl. lia.
Qed.

Lemma paired_create this data g : paired g → paired (snd (create this data g)).
Proof.
  intros I. rewrite create_state.
  destruct (id_frame data (snd (model this g))) as (E1 & E2 & E3).
  eapply paired_frame; eauto using paired_model.
Qed.

(** Under the pairing, the callback of a pending timeout finds its entry:
    it does not throw, and it removes exactly that entry and that
    timeout. *)
Lemma expire_pending g tid t :
  paired g →
  timers g !! tid = Some t →
  ∃ e, tenantDBModel g !! owner t = Some e
       ∧ timer e = tid
       ∧ expire (owner t) (dequeue tid g)
         = Some (Global (delete (owner t) (tenantDBModel g))
                        (delete tid (delete tid (timers g)))
                        (next_timer g) (next_schema g) (now g) (connection g)
                        (objectid g) (trace g ++ [ClearTimeout tid])).
Proof.
  intros (I1 & I2 & I3) Ht. destruct (I2 _ _ Ht) as (e & He & Hte).
  exists e. repeat split; [exact He | exact Hte |].
  unfold expire, dequeue. simpl. rewrite He, Hte. reflexivity.
Qed.

Lemma paired_expire g g' tid t :
  paired g →
  timers g !! tid = Some t →
  expire (owner t) (dequeue tid g) = Some g' →
  paired g'.
Proof.
  intros I Ht Hex. destruct (expire_pending g tid t I Ht) as (e & He & Hte & Hrun).
  rewrite Hrun in Hex. injection Hex as <-.
  destruct I as (I1 & I2 & I3). repeat split; simpl.
  - intros name' e' Hl. apply lookup_delete_Some in Hl as [Hne Hl].
    destruct (I1 _ _ Hl) as (t' & Ht' & Ho). exists t'. split; [|exact Ho].
    assert (timer e' ≠ tid).
    { intros Heq. rewrite Heq in Ht'. congruence. }
    now rewrite !lookup_delete_ne by congruence.
  - intros tid' t' Hl. apply lookup_delete_Some in Hl as [Hne Hl].
    apply lookup_delete_Some in Hl as [_ Hl].
    destruct (I2 _ _ Hl) as (e' & He' & Hte'). exists e'. split; [|exact Hte'].
    rewrite lookup_delete_ne; [exact He'|]. intros Heq. rewrite Heq in He. congruence.
  - intros tid' t' Hl. apply lookup_delete_Some in Hl as [_ Hl].
    apply lookup_delete_Some in Hl as [_ Hl]. eauto.
Qed.

Lemma reachable_paired g : reachable g → paired g.
Proof.
  induction 1 as [d gen t | g g' _ IH Hstep].
  - apply paired_initial.
  - destruct Hstep as [this g | this data g | dt g _ | tid t g g' Ht _ Hex].
    + now apply paired_model.
    + now apply paired_create.
    + eapply paired_frame; [..|exact IH]; reflexivity.
    + eapply paired_expire; eauto.
Qed.

End Pairing.

(** C8. In every state the process can reach, an entry of the registry and
    a pending timeout go together one to one, so a name has at most one
    live entry and one timer.  When the timeout of an entry runs, its
    callback succeeds and deletes the entry (and nothing under another
    name); the next request for that name then compiles a new schema,
    applies the index entries again and asks the driver for a model, and
    for a tenant instance stores it with a timeout of 30 minutes. *)
Theorem registry_expiry {D H : Type} `{!Driver D H} (g : global D H) :
  reachable g →
  (∀ tid1 tid2 t1 t2,
     timers g !! tid1 = Some t1 → timers g !! tid2 = Some t2 →
     owner t1 = owner t2 → tid1 = tid2)
  ∧ (∀ name e, tenantDBModel g !! name = Some e →
       ∃ t, timers g !! timer e = Some t ∧ owner t = name)
  ∧ TTL = 1800000
  ∧ (∀ tid t, timers g !! tid = Some t →
       ∃ e g',
         tenantDBModel g !! owner t = Some e
         ∧ timer e = tid
         ∧ expire (owner t) (dequeue tid g) = Some g'
         ∧ tenantDBModel g' !! owner t = None
         ∧ timers g' !! tid = None
         ∧ (∀ other, other ≠ owner t →
              tenantDBModel g' !! other = tenantDBModel g !! other)
         ∧ ∀ this, collectionName this = owner t →
             ∃ h g'',
               model this g' = (h, g'')
               ∧ h = fst (server_model (owner t) (built_schema this (next_schema g'))
                            (owner t) (connection g'))
               ∧ trace g''
                 = (trace g' ++ resolution_effects this (next_schema g')
                    ++ (if truthy (tenant_value (tenantId this))
                        then [MongoBase.SetTimeout (next_timer g') TTL] else []))%list
               ∧ (truthy (tenant_value (tenantId this)) = true →
                  tenantDBModel g'' !! owner t = Some (Entry h (next_timer g'))
                  ∧ timers g'' !! next_timer g' = Some (Task (now g' + TTL) (owner t)))).
Proof.
  intros R. pose proof (reachable_paired g R) as I.
  split; [|split; [|split; [reflexivity|]]].
  - destruct I as (_ & I2 & _). intros tid1 tid2 t1 t2 H1 H2 Ho.
    destruct (I2 _ _ H1) as (e1 & He1 & <-).
    destruct (I2 _ _ H2) as (e2 & He2 & <-).
    rewrite Ho in He1. congruence.
  - now destruct I.
  - intros tid t Ht.
    destruct (expire_pending g tid t I Ht) as (e & He & Hte & Hrun).
    exists e. eexists. split; [exact He|]. split; [exact Hte|].
    split; [exact Hrun|]. cbn [tenantDBModel timers next_schema next_timer connection trace now].
    split; [apply lookup_delete_eq|]. split; [apply lookup_delete_eq|].
    split; [intros other Hne; apply lookup_delete_ne; congruence|].
    intros this Hname.
    match goal with |- context [model this ?s] => set (g' := s) end.
    assert (Hmiss : tenantDBModel g' !! collectionName this = None).
    { rewrite Hname. apply lookup_delete_eq. }
    pose proof (model_miss this g' Hmiss) as E. cbv zeta in E.
    rewrite Hname in E. rewrite E.
    destruct (truthy (tenant_value (tenantId this))); eexists; eexists;
      (split; [reflexivity|]); (split; [reflexivity|]); cbn [trace tenantDBModel timers].
    + split; [now rewrite <- app_assoc|]. intros _.
      split; apply lookup_insert_eq.
    + split; [now rewrite app_nil_r|]. discriminate.
Qed.

Lemma registry_expiry_witness :
  let g := snd (model Sample.orders Sample.start) in
  reachable g
  ∧ timers g !! 0%nat = Some (Task 1800000 "t1_orders")
  ∧ ∃ g', expire "t1_orders" (dequeue 0 g) = Some g'
          ∧ tenantDBModel g' !! "t1_orders" = None
          ∧ compilations (trace (snd (model Sample.orders g'))) = 2%nat.
Proof.
  cbv zeta.
  assert (R : reachable (snd (model Sample.orders Sample.start))).
  { eapply reach_step; [apply reach_initial | apply step_model]. }
  assert (T : timers (snd (model Sample.orders Sample.start)) !! 0%nat
              = Some (Task 1800000 "t1_orders")) by (vm_compute; reflexivity).
  split; [exact R|]. split; [exact T|].
  destruct (registry_expiry _ R) as (_ & _ & _ & Hfire).
  destruct (Hfire _ _ T) as (e & g' & _ & _ & Hrun & Hgone & _).
  exists g'. split; [exact Hrun|]. split; [exact Hgone|].
  vm_compute in Hrun. injection Hrun as <-. vm_compute. reflexivity.
Defined.

(** ** create *)

Section Create.

Context {D H : Type} `{!Driver D H}.

Implicit Types (g : global D H) (this : instance).

(** [lacks_id] is false exactly on a record whose [_id] is a string that
    is not blank. *)
Lemma lacks_id_false r : lacks_id r = false ↔ ∃ s, given_id r s.
Proof.
  unfold lacks_id, given_id, get, blank.
  destruct (r !! "_id") as [[| |b|z| |s]|] eqn:E; cbn [is_string typeof negb orb andb].
  6: { destruct (String.eqb_spec (trim s) "") as [Heq|Hne].
       - split; [discriminate|]. intros (s' & Hs' & Hnb). congruence.
       - split; [eauto|reflexivity]. }
  all: split; [discriminate | intros (s' & Hs' & _); discriminate].
Qed.

Lemma identifiers_length n gen : length (identifiers n gen) = n.
Proof.
  revert gen. induction n as [|n IH]; intros gen; [reflexivity|].
  cbn [identifiers ObjectId.generate]. cbn [length]. now rewrite IH.
Qed.

Lemma identifiers_shape n gen s :
  s ∈ identifiers n gen →
  String.length s = 24%nat ∧ ObjectId.all_hex s = true ∧ ¬ blank s.
Proof.
  revert gen. induction n as [|n IH]; intros gen Hin.
  - cbn [identifiers] in Hin. now apply elem_of_nil in Hin.
  - cbn [identifiers ObjectId.generate] in Hin.
    apply elem_of_cons in Hin as [->|Hin]; [|eauto].
    auto using toString_length, toString_all_hex, toString_not_blank.
Qed.

(** The single form: whatever the record holds under [_id], the document
    saved carries the next identifier of the generator. *)
Lemma create_one_run this r g :
  let s := ObjectId.toString (fst (ObjectId.generate (objectid g))) in
  ∃ m g',
    create this (One r) g = (Invoke m (Save (with_id r s)), g')
    ∧ get (with_id r s) "_id" = VStr s
    ∧ String.length s = 24%nat ∧ ObjectId.all_hex s = true ∧ ¬ blank s.
Proof.
  cbv zeta. unfold create. unfold bind at 1.
  pose proof (model_objectid this g) as Ho.
  destruct (model this g) as [m g1]. cbn [snd] in Ho.
  unfold bind at 1. rewrite id_one_run. rewrite Ho.
  eexists; eexists. split; [reflexivity|].
  split; [unfold get, with_id; now rewrite lookup_insert_eq|].
  auto using toString_length, toString_all_hex, toString_not_blank.
Qed.

End Create.


Lemma hex_digit_inj a b :
  0 ≤ a < 16 → 0 ≤ b < 16 → ObjectId.hex_digit a = ObjectId.hex_digit b → a = b.
Proof.
  intros Ha Hb.
  destruct a as [|p|p]; [| |lia]; destruct b as [|q|q]; try lia;
    do 4 (try destruct p as [p|p|]); try lia;
    do 4 (try destruct q as [q|q|]); try lia;
    cbn; intros E; first [reflexivity | discriminate E].
Qed.

Lemma nibble_is_mod z k :
  Z.land (Z.shiftr z (4 * Z.of_nat k)) 15 = (z / 16 ^ Z.of_nat k) mod 16.
Proof.
  change 15 with (Z.ones 4). rewrite Z.land_ones by lia.
  rewrite Z.shiftr_div_pow2 by lia. rewrite Z.pow_mul_r by lia. reflexivity.
Qed.

Lemma hex_tail n m z z' :
  ObjectId.hex (n + m) z = ObjectId.hex (n + m) z' → ObjectId.hex m z = ObjectId.hex m z'.
Proof.
  induction n as [|n IH]; [auto|]. cbn [Nat.add]. rewrite !hex_step.
  intros E. injection E as _ E. auto.
Qed.

(** The digits give the number back, up to the width printed. *)
Lemma hex_low n z z' :
  ObjectId.hex n z = ObjectId.hex n z' → z mod 16 ^ Z.of_nat n = z' mod 16 ^ Z.of_nat n.
Proof.
  induction n as [|n IH]; intros E.
  - cbn. now rewrite !Z.mod_1_r.
  - rewrite !hex_step in E. injection E as Ed Et.
    apply hex_digit_inj in Ed.
    2,3: rewrite nibble_is_mod; apply Z.mod_pos_bound; lia.
    rewrite !nibble_is_mod in Ed. apply IH in Et.
    rewrite Nat2Z.inj_succ, Z.pow_succ_r by lia.
    rewrite (Z.mul_comm 16). rewrite !Z.rem_mul_r by lia.
    now rewrite Ed, Et.
Qed.

Lemma pack_low g inc :
  Z.land (ObjectId.pack g inc) (Z.ones 24) = Z.land inc (Z.ones 24).
Proof.
  unfold ObjectId.pack. apply Z.bits_inj'. intros n Hn.
  rewrite !Z.land_spec, !Z.lor_spec, Z.land_spec.
  destruct (Z.lt_ge_cases n 24) as [Hlt|Hge].
  - rewrite !Z.shiftl_spec_low by lia. cbn [orb].
    now destruct (Z.testbit inc n), (Z.testbit (Z.ones 24) n).
  - rewrite (Z.ones_spec_high 24 n) by lia. now rewrite !andb_false_r.
Qed.

(** Two identifiers of one process and second differ when their counters
    differ. *)
Lemma toString_counter g a b :
  0 ≤ a < 16777216 → 0 ≤ b < 16777216 →
  ObjectId.toString (ObjectId.pack g a) = ObjectId.toString (ObjectId.pack g b) →
  a = b.
Proof.
  intros Ha Hb E. unfold ObjectId.toString in E.
  apply (hex_tail 18 6), hex_low in E.
  change (16 ^ Z.of_nat 6) with (2 ^ 24) in E.
  rewrite <- !Z.land_ones, !pack_low, !Z.land_ones in E by lia.
  rewrite !Z.mod_small in E by (change (2 ^ 24) with 16777216; lia). exact E.
Qed.

Lemma identifiers_lookup n : ∀ gen j,
  (j < n)%nat →
  identifiers n gen !! j
  = Some (ObjectId.toString
            (ObjectId.pack gen ((ObjectId.index gen + Z.of_nat (S j)) mod 16777215))).
Proof.
  induction n as [|n IH]; intros gen j Hj; [lia|].
  cbn [identifiers ObjectId.generate]. destruct j as [|j].
  - cbn [lookup list_lookup]. unfold ObjectId.next_index. reflexivity.
  - cbn [lookup list_lookup]. rewrite IH by lia. cbn [ObjectId.index].
    unfold ObjectId.next_index. do 2 f_equal.
    rewrite Zplus_mod_idemp_l.
    replace (ObjectId.index gen + 1 + Z.of_nat (S j))
      with (ObjectId.index gen + Z.of_nat (S (S j))) by lia.
    now destruct gen.
Qed.

(** Fewer identifiers than the counter has values are pairwise distinct. *)
Lemma identifiers_NoDup n gen : (Z.of_nat n ≤ 16777215)%Z → NoDup (identifiers n gen).
Proof.
  intros Hn. apply NoDup_alt. intros i j s Hi Hj.
  assert (Hi' : (i < n)%nat).
  { apply lookup_lt_Some in Hi. now rewrite identifiers_length in Hi. }
  assert (Hj' : (j < n)%nat).
  { apply lookup_lt_Some in Hj. now rewrite identifiers_length in Hj. }
  rewrite identifiers_lookup in Hi, Hj by assumption.
  rewrite <- Hj in Hi. apply (inj Some) in Hi. rename Hi into E.
  apply toString_counter in E.
  2,3: pose proof (Z.mod_pos_bound (ObjectId.index gen + Z.of_nat (S i)) 16777215);
       pose proof (Z.mod_pos_bound (ObjectId.index gen + Z.of_nat (S j)) 16777215); lia.
  assert (Hd : ((ObjectId.index gen + Z.of_nat (S i))
                - (ObjectId.index gen + Z.of_nat (S j))) mod 16777215 = 0).
  { rewrite Zminus_mod, E, Z.sub_diag. reflexivity. }
  apply Z.mod_divide in Hd; [|lia]. destruct Hd as [c Hc]. lia.
Qed.

Lemma identifiers_generated n : ∀ gen i,
  (i < n)%nat →
  identifiers n gen !! i
  = Some (ObjectId.toString (fst (ObjectId.generate (generator_after i gen)))).
Proof.
  induction n as [|n IH]; intros gen i Hi; [lia|].
  cbn [identifiers ObjectId.generate]. destruct i as [|i]; [reflexivity|].
  cbn [lookup list_lookup generator_after ObjectId.generate snd]. apply IH. lia.
Qed.

(** C10. The array form hands [insertMany] the records that lack an
    identifier (a record lacks one unless its [_id] is a string that is not
    blank), in their order, each with its other fields kept and with [_id]
    set to the identifier the generator gave at that point: 24 hexadecimal
    characters, not blank, and different from the others of the call.  A
    record that came with an identifier is not among those handed over. *)
Theorem create_many_inserts_unidentified {D H : Type} `{!Driver D H}
    (this : instance) (rs : list object) (g : global D H) :
  let todo := List.filter lacks_id rs in
  let ids := identifiers (length todo) (objectid g) in
  ∃ m g',
    create this (Many rs) g = (Invoke m (InsertMany (zip_with with_id todo ids)), g')
    ∧ length (zip_with with_id todo ids) = length todo
    ∧ (∀ r, r ∈ todo ↔ r ∈ rs ∧ ¬ ∃ s, given_id r s)
    ∧ (∀ s, s ∈ ids →
         String.length s = 24%nat ∧ ObjectId.all_hex s = true ∧ ¬ blank s)
    ∧ (∀ r s, given_id r s → r ∉ todo)
    ∧ (∀ i d, zip_with with_id todo ids !! i = Some d →
         ∃ r s, todo !! i = Some r
                ∧ ids !! i = Some s
                ∧ d !! "_id" = Some (VStr s)
                ∧ ∀ k, k ≠ "_id" → d !! k = r !! k)
    ∧ (∀ i, (i < length todo)%nat →
         ids !! i
         = Some (ObjectId.toString
                   (fst (ObjectId.generate (generator_after i (objectid g))))))
    ∧ ((Z.of_nat (length todo) ≤ 16777215)%Z → NoDup ids)
    ∧ objectid g' = generator_after (length todo) (objectid g).
Proof.
  cbv zeta. unfold create. unfold bind at 1.
  pose proof (model_objectid this g) as Ho.
  destruct (model this g) as [m g1]. cbn [snd] in Ho.
  unfold bind at 1. cbn [id].
  pose proof (id_each_run rs g1) as E. cbv zeta in E. rewrite E, Ho.
  eexists; eexists. split; [reflexivity|].
  assert (Hmem : ∀ r, r ∈ List.filter lacks_id rs ↔ r ∈ rs ∧ ¬ ∃ s, given_id r s).
  { intros r. rewrite !list_elem_of_In, List.filter_In, <- lacks_id_false.
    destruct (lacks_id r); intuition congruence. }
  split; [|split; [exact Hmem|split; [|split; [|split; [|split; [|split]]]]]].
  - rewrite length_zip_with, identifiers_length. lia.
  - intros s. apply identifiers_shape.
  - intros r s Hgiven Hin. apply Hmem in Hin as [_ Hno]. eauto.
  - intros i d Hi.
    apply lookup_zip_with_Some in Hi as (r & s & -> & Hr & Hs).
    exists r, s. split; [exact Hr|]. split; [exact Hs|].
    unfold with_id. split; [apply lookup_insert_eq|].
    intros k Hk. apply lookup_insert_ne. congruence.
  - intros i Hi. now apply identifiers_generated.
  - apply identifiers_NoDup.
  - reflexivity.
Qed.

(** C1 on the code.  A record that comes with the identifier ['u-1'] is
    saved by the single form under a generated identifier instead, and is
    left out of the insert by the array form. *)
Theorem create_loses_given_id :
  given_id Sample.ann "u-1"
  ∧ request (fst (create Sample.users (One Sample.ann) Sample.start))
    = Save (with_id Sample.ann "6553f1000000abcdef00002a")
  ∧ get (with_id Sample.ann "6553f1000000abcdef00002a") "_id" ≠ VStr "u-1"
  ∧ request (fst (create Sample.users (Many [Sample.ann; Sample.bob]) Sample.start))
    = InsertMany [with_id Sample.bob "6553f1000000abcdef00002a"].
Proof.
  split; [split; [reflexivity | vm_compute; discriminate]|].
  split; [vm_compute; reflexivity|].
  split; [vm_compute; discriminate|].
  vm_compute. reflexivity.
Qed.

(** ** upsert, count, paging *)

(** C4. [upsertOne] and [upsertMany] resolve the model and call its
    [updateOne] / [updateMany] with the caller's query and update and with
    an options bag that is the caller's with [upsert] set to [true],
    whatever the caller had there.  With [{ upsert: false }] from the
    caller and no matching document, the update therefore inserts
    ([upsertedCount] 1), where [updateOne] with the same bag does not. *)
Theorem upsert_forces_flag {D H : Type} `{!Driver D H} (this : instance)
    (query update : object) (options : option object) (g : global D H) :
  let forced := <["upsert" := VBool true]> (spread options) in
  (∃ m g',
     model this g = (m, g')
     ∧ upsertOne this query update options g
       = (Invoke m (UpdateOne query update (Some forced)), g')
     ∧ upsertMany this query update options g
       = (Invoke m (UpdateMany query update (Some forced)), g'))
  ∧ get forced "upsert" = VBool true
  ∧ (∀ k, k ≠ "upsert" → get forced k = get (spread options) k)
  ∧ (let q : object := <["name" := VStr "ann"]> ∅ in
     let u : object := <["age" := VNum 3]> ∅ in
     let asked : option object := Some (<["upsert" := VBool false]> ∅) in
     let empty := Engine.Store [] (ObjectId.Generator 0 0 0) in
     get (spread asked) "upsert" = VBool false
     ∧ (∃ r s, Engine.perform (request (fst (upsertOne this q u asked g))) empty
               = (Engine.Updated r, s)
               ∧ Engine.upsertedCount r = 1)
     ∧ (∃ r s, Engine.perform (request (fst (upsertMany this q u asked g))) empty
               = (Engine.Updated r, s)
               ∧ Engine.upsertedCount r = 1)
     ∧ (∃ r s, Engine.perform (request (fst (updateOne this q u asked g))) empty
               = (Engine.Updated r, s)
               ∧ Engine.upsertedCount r = 0)).
Proof.
  cbv zeta.
  assert (Hone : ∀ q u o, upsertOne this q u o g
            = (Invoke (fst (model this g))
                 (UpdateOne q u (Some (<["upsert" := VBool true]> (spread o)))),
               snd (model this g))).
  { intros. unfold upsertOne, updateOne, bind, ret. now destruct (model this g). }
  assert (Hmany : ∀ q u o, upsertMany this q u o g
            = (Invoke (fst (model this g))
                 (UpdateMany q u (Some (<["upsert" := VBool true]> (spread o)))),
               snd (model this g))).
  { intros. unfold upsertMany, updateMany, bind, ret. now destruct (model this g). }
  assert (Hplain : ∀ q u o, updateOne this q u o g
            = (Invoke (fst (model this g)) (UpdateOne q u o), snd (model this g))).
  { intros. unfold updateOne, bind, ret. now destruct (model this g). }
  split; [|split; [|split]].
  - exists (fst (model this g)), (snd (model this g)).
    rewrite Hone, Hmany. now destruct (model this g).
  - unfold get. now rewrite lookup_insert_eq.
  - intros k Hk. unfold get. now rewrite lookup_insert_ne by congruence.
  - rewrite Hone, Hmany, Hplain. cbn [fst request].
    split; [reflexivity|].
    split; [|split]; eexists; eexists; (split; [vm_compute; reflexivity | reflexivity]).
Qed.

(** C5. [count] with a query calls [countDocuments] on that query;
    without one it calls [estimatedDocumentCount].  On a collection of two
    documents of which the query selects one, the first gives 1 and the
    second 2. *)
Theorem count_paths {D H : Type} `{!Driver D H} (this : instance) (g : global D H) :
  (∀ q, ∃ m g',
     model this g = (m, g')
     ∧ count this (Some q) g = (Invoke m (CountDocuments q), g'))
  ∧ (∃ m g',
       model this g = (m, g')
       ∧ count this None g = (Invoke m EstimatedDocumentCount, g'))
  ∧ (let q : object := <["name" := VStr "ann"]> ∅ in
     let data := Engine.Store [Sample.ann; Sample.bob] (ObjectId.Generator 0 0 0) in
     fst (Engine.perform (request (fst (count this (Some q) g))) data) = Engine.Counted 1
     ∧ fst (Engine.perform (request (fst (count this None g))) data) = Engine.Counted 2).
Proof.
  assert (Hsome : ∀ q, count this (Some q) g
            = (Invoke (fst (model this g)) (CountDocuments q), snd (model this g))).
  { intros. unfold count, bind, ret. now destruct (model this g). }
  assert (Hnone : count this None g
            = (Invoke (fst (model this g)) EstimatedDocumentCount, snd (model this g))).
  { unfold count, bind, ret. now destruct (model this g). }
  split; [|split].
  - intros q. exists (fst (model this g)), (snd (model this g)).
    rewrite Hsome. now destruct (model this g).
  - exists (fst (model this g)), (snd (model this g)).
    rewrite Hnone. now destruct (model this g).
  - cbv zeta. rewrite Hsome, Hnone. cbn [fst request].
    split; vm_compute; reflexivity.
Qed.

(** The reference engine orders documents: its comparison is total, and
    its sort returns the documents it was given, in order. *)

Lemma value_leb_total a b : Engine.value_leb a b = true ∨ Engine.value_leb b a = true.
Proof.
  destruct a as [| |x|x| |x], b as [| |y|y| |y]; cbn; auto.
  - destruct x, y; auto.
  - destruct (Z.leb_spec x y), (Z.leb_spec y x); auto; lia.
  - apply String.leb_total.
Qed.

Lemma doc_leb_total s a b : Engine.doc_leb s a b = true ∨ Engine.doc_leb s b a = true.
Proof.
  induction s as [|[k d] rest IH]; cbn [Engine.doc_leb]; [auto|].
  pose proof (value_leb_total (get a k) (get b k)) as T.
  destruct (Engine.value_leb (get a k) (get b k)),
           (Engine.value_leb (get b k) (get a k)); cbn [andb].
  - exact IH.
  - destruct (Engine.upward d); auto.
  - destruct (Engine.upward d); auto.
  - destruct T; discriminate.
Qed.

Section Sorting.

Variable leb : object → object → bool.
Hypothesis leb_total : ∀ a b, leb a b = true ∨ leb b a = true.

Lemma insert_by_perm x l : Engine.insert_by leb x l ≡ₚ x :: l.
Proof.
  induction l as [|y rest IH]; cbn [Engine.insert_by]; [reflexivity|].
  destruct (leb x y); [reflexivity|].
  rewrite IH. apply Permutation_swap.
Qed.

Lemma insert_by_head x l : Sorted (λ a b, leb a b = true) l → HdRel (λ a b, leb a b = true) x l → ∀ y, leb x y = true → HdRel (λ a b, leb a b = true) x (Engine.insert_by leb y l).
Proof.
  intros _ Hhd y Hxy. destruct l as [|z rest]; cbn [Engine.insert_by].
  - now constructor.
  - destruct (leb y z); constructor; [exact Hxy|]. now inversion Hhd.
Qed.

Lemma insert_by_sorted x l : Sorted (λ a b, leb a b = true) l → Sorted (λ a b, leb a b = true) (Engine.insert_by leb x l).
Proof.
  induction 1 as [|y rest Hs IH Hhd]; cbn [Engine.insert_by].
  - repeat constructor.
  - destruct (leb x y) eqn:E.
    + constructor; [now constructor|]. now constructor.
    + constructor; [exact IH|].
      apply insert_by_head; [exact Hs | exact Hhd |].
      destruct (leb_total x y) as [E'|E']; [congruence | exact E'].
Qed.

Lemma sort_by_perm l : Engine.sort_by leb l ≡ₚ l.
Proof.
  induction l as [|x rest IH]; [reflexivity|].
  cbn [Engine.sort_by fold_right]. rewrite insert_by_perm.
  now constructor.
Qed.

Lemma sort_by_sorted l : Sorted (λ a b, leb a b = true) (Engine.sort_by leb l).
Proof.
  induction l as [|x rest IH]; [constructor|].
  cbn [Engine.sort_by fold_right]. now apply insert_by_sorted.
Qed.

End Sorting.

Lemma sort_put_fresh key d s :
  key ∉ map fst s → sort_put key d s = (s ++ [(key, d)])%list.
Proof.
  induction s as [|[k d'] rest IH]; intros Hfresh; [reflexivity|].
  cbn [sort_put]. cbn [map fst] in Hfresh.
  apply not_elem_of_cons in Hfresh as [Hne Hrest].
  destruct (String.eqb_spec k key) as [->|_]; [congruence|].
  cbn. now rewrite IH.
Qed.

(** A sort mapping with distinct keys, put on a query that has no sort
    yet, is the query's sort. *)
Lemma sort_merge_fresh more : ∀ s,
  NoDup (map fst (s ++ more)%list) → sort_merge s more = (s ++ more)%list.
Proof.
  induction more as [|[k d] rest IH]; intros s Hnd.
  - cbn. now rewrite app_nil_r.
  - unfold sort_merge. cbn [fold_left fst snd].
    fold (sort_merge (sort_put k d s) rest).
    rewrite map_app in Hnd. cbn [map fst] in Hnd.
    assert (Hk : k ∉ map fst s).
    { apply NoDup_app in Hnd as (_ & Hdisj & _). intros Hin.
      apply (Hdisj k Hin). left. }
    rewrite sort_put_fresh by exact Hk. rewrite IH.
    + now rewrite <- app_assoc.
    + rewrite <- app_assoc. cbn. rewrite map_app. cbn [map fst]. exact Hnd.
Qed.

Lemma sorted_without_keys (l : list object) :
  Sorted (λ a b, Engine.doc_leb [] a b = true) l.
Proof.
  induction l as [|x l IH]; constructor; [exact IH|].
  destruct l; constructor. reflexivity.
Qed.




Example paging_sample :
  let q := request (fst (paging Sample.users ∅ (Int 2) NaN
                           (Some [("name", descending)]) None Sample.start)) in
  fst (Engine.perform q
         (Engine.Store [Sample.ann; Sample.dan; Sample.bob; Sample.cat]
                       (ObjectId.Generator 0 0 0)))
  = Engine.Found [Sample.dan; Sample.cat].
Proof. vm_compute. reflexivity. Qed.

(** ** The connection manager *)

Import MongoConnect.

Lemma mongoconnect_attempt w addr :
  MONGO_URL w = Some addr → addr ≠ "" →
  mongoconnect w
  = (Returned, World (Some addr) (clock w) (pending w) (events w ++ [Connect addr])).
Proof.
  intros Hurl Hne. unfold mongoconnect. rewrite Hurl. cbn.
  destruct (String.eqb_spec addr "") as [->|_]; [congruence|]. cbn.
  unfold MongoConnect.emit. now rewrite Hurl.
Qed.

(** One failed attempt, start to end: the error is logged, a timeout of
    [RECONNET_TIME] is set, and when it is due [mongoconnect] has run
    again and a new attempt is with the driver. *)
Lemma failed_attempt_run w addr e latency :
  MONGO_URL w = Some addr → addr ≠ "" → pending w = [] →
  failed_attempt (e, latency) w
  = World (Some addr) (clock w + latency + 5000) []
          (events w ++ [Log "mongodb" Error e; MongoConnect.SetTimeout 5000; Connect addr]).
Proof.
  intros Hurl Hne Hpend.
  unfold failed_attempt, callback, MongoConnect.setTimeout, MongoConnect.emit, tick,
    run_timeout, RECONNET_TIME.
  cbn. rewrite Hpend. cbn.
  rewrite (mongoconnect_attempt _ addr) by (cbn; assumption). cbn.
  f_equal; [lia|]. now rewrite <- !app_assoc.
Qed.

(** C6, as stated, fails: an address of two spaces is blank, yet it is
    truthy, so it passes the guard and is handed to [mongoose.connect];
    when that attempt fails the callback sets a timeout like for any other
    address. *)
Lemma mongoconnect_blank_address_attempted :
  let w := World (Some "  ") 0 [] [] in
  blank "  "
  ∧ mongoconnect w = (Returned, World (Some "  ") 0 [] [Connect "  "])
  ∧ pending (snd (callback (Some "Invalid connection string") (snd (mongoconnect w))))
    = [5000].
Proof. repeat split. Qed.

(** C6, amended.  With no address configured, or the empty string,
    [mongoconnect] logs one error on the [mongodb] channel and returns:
    nothing is handed to [mongoose.connect], no timeout is set, and none is
    left pending that was not there before. *)
Theorem mongoconnect_without_address (w : world) :
  MONGO_URL w = None ∨ MONGO_URL w = Some "" →
  ∃ message,
    mongoconnect w
    = (Returned,
       World (MONGO_URL w) (clock w) (pending w)
             (events w ++ [Log "mongodb" Error message]))
    ∧ message = "mongodb connect address is required but get " ++ interpolate (MONGO_URL w)
    ∧ pending (snd (mongoconnect w)) = pending w
    ∧ (∀ ev, ev ∈ events (snd (mongoconnect w)) →
         ev ∈ events w ∨ ev = Log "mongodb" Error message).
Proof.
  intros Hmissing. destruct w as [url c p evs]. cbn in Hmissing.
  eexists. split; [|split; [reflexivity|]].
  - unfold mongoconnect. destruct Hmissing as [-> | ->]; reflexivity.
  - unfold mongoconnect.
    destruct Hmissing as [-> | ->]; cbn; (split; [reflexivity|]);
      intros ev Hin; apply elem_of_app in Hin as [Hin|Hin]; auto;
      apply list_elem_of_singleton in Hin; auto.
Qed.

Lemma mongoconnect_without_address_witness :
  let w := World None 0 [] [] in
  (MONGO_URL w = None ∨ MONGO_URL w = Some "")
  ∧ ∃ message,
      mongoconnect w
      = (Returned,
         World (MONGO_URL w) (clock w) (pending w)
               (events w ++ [Log "mongodb" Error message]))
      ∧ message = "mongodb connect address is required but get " ++ interpolate (MONGO_URL w)
      ∧ pending (snd (mongoconnect w)) = pending w
      ∧ (∀ ev, ev ∈ events (snd (mongoconnect w)) →
           ev ∈ events w ∨ ev = Log "mongodb" Error message).
Proof.
  cbv zeta. split; [left; reflexivity|].
  apply (mongoconnect_without_address (World None 0 [] [])). left. reflexivity.
Defined.

(** C7. With an address configured, however many attempts fail in a row
    and whatever the errors and the time they take: the callback returns
    (it throws nothing), each error is logged, each failure sets one timeout
    of 5000 ms, and when that timeout is due a new attempt on the same
    address is made, 5000 ms after the failure was reported.  After [n]
    failures there have been [n + 1] attempts and no timeout is left
    pending. *)
Theorem connect_failures_retry (addr : string) (fs : list (string * Z)) (w : world) :
  MONGO_URL w = Some addr →
  addr ≠ "" →
  pending w = [] →
  let w' := failed_attempts fs (snd (mongoconnect w)) in
  RECONNET_TIME = 5000
  ∧ (∀ w1, fst (mongoconnect w1) = Returned)
  ∧ (∀ e w1, callback (Some e) w1
       = (Returned,
          World (MONGO_URL w1) (clock w1) (pending w1 ++ [clock w1 + 5000])
                (events w1 ++ [Log "mongodb" Error e; MongoConnect.SetTimeout 5000])))
  ∧ events w'
    = (events w ++ Connect addr
       :: flat_map (λ f, [Log "mongodb" Error (fst f);
                          MongoConnect.SetTimeout 5000;
                          Connect addr]) fs)%list
  ∧ pending w' = []
  ∧ clock w' = clock w + foldr (λ f acc, snd f + 5000 + acc) 0 fs
  ∧ length (List.filter (λ ev, bool_decide (ev = Connect addr)) (events w'))
    = (length (List.filter (λ ev, bool_decide (ev = Connect addr)) (events w))
       + S (length fs))%nat.
Proof.
  intros Hurl Hne Hpend. cbv zeta.
  split; [reflexivity|]. split.
  { intros w1. unfold mongoconnect. now destruct (negb _). }
  split.
  { intros e w1. unfold callback, MongoConnect.setTimeout, MongoConnect.emit, RECONNET_TIME.
    cbn. now rewrite <- app_assoc. }
  rewrite (mongoconnect_attempt w addr Hurl Hne). cbn [snd].
  set (w0 := World (Some addr) (clock w) (pending w) (events w ++ [Connect addr])).
  assert (Hrun : ∀ fs w0,
    MONGO_URL w0 = Some addr → pending w0 = [] →
    MONGO_URL (failed_attempts fs w0) = Some addr
    ∧ pending (failed_attempts fs w0) = []
    ∧ clock (failed_attempts fs w0) = clock w0 + foldr (λ f acc, snd f + 5000 + acc) 0 fs
    ∧ events (failed_attempts fs w0)
      = (events w0 ++ flat_map (λ f, [Log "mongodb" Error (fst f);
                                      MongoConnect.SetTimeout 5000;
                                      Connect addr]) fs)%list).
  { clear - Hne. intros fs. induction fs as [|[e l] rest IH]; intros w0 Hurl Hpend.
    - cbn. rewrite app_nil_r. repeat split; auto; lia.
    - unfold failed_attempts. cbn [fold_left].
      fold (failed_attempts rest (failed_attempt (e, l) w0)).
      rewrite (failed_attempt_run w0 addr e l Hurl Hne Hpend).
      destruct (IH (World (Some addr) (clock w0 + l + 5000) []
                      (events w0 ++ [Log "mongodb" Error e;
                                     MongoConnect.SetTimeout 5000; Connect addr])))
        as (H1 & H2 & H3 & H4); [reflexivity | reflexivity |].
      repeat split; [exact H1 | exact H2 | rewrite H3; cbn; lia |].
      rewrite H4. cbn. now rewrite <- app_assoc. }
  destruct (Hrun fs w0) as (_ & H2 & H3 & H4); [reflexivity | exact Hpend |].
  split; [|split; [exact H2|split; [exact H3|]]].
  - rewrite H4. unfold w0. cbn. now rewrite <- app_assoc.
  - rewrite H4. unfold w0. cbn. rewrite !List.filter_app, !length_app. cbn.
    rewrite bool_decide_eq_true_2 by reflexivity. cbn.
    assert (Hc : ∀ l : list (string * Z),
      length (List.filter (λ ev, bool_decide (ev = Connect addr))
                (flat_map (λ f, [Log "mongodb" Error (fst f);
                                 MongoConnect.SetTimeout 5000; Connect addr]) l))
      = length l).
    { induction l as [|f l IHl]; [reflexivity|]. cbn.
      repeat case_bool_decide; try congruence. cbn. now rewrite IHl. }
    rewrite Hc. lia.
Qed.

Lemma connect_failures_retry_witness :
  let addr := "mongodb://db:27017/app" in
  let fs := [("ECONNREFUSED", 12); ("ETIMEDOUT", 30000); ("ECONNREFUSED", 7)] in
  let w := World (Some addr) 0 [] [] in
  MONGO_URL w = Some addr
  ∧ addr ≠ ""
  ∧ pending w = []
  ∧ events (failed_attempts fs (snd (mongoconnect w)))
    = [Connect addr;
       Log "mongodb" Error "ECONNREFUSED"; MongoConnect.SetTimeout 5000; Connect addr;
       Log "mongodb" Error "ETIMEDOUT"; MongoConnect.SetTimeout 5000; Connect addr;
       Log "mongodb" Error "ECONNREFUSED"; MongoConnect.SetTimeout 5000; Connect addr]
  ∧ clock (failed_attempts fs (snd (mongoconnect w))) = 45019.
Proof.
  cbv zeta.
  assert (Hne : "mongodb://db:27017/app" ≠ "") by discriminate.
  split; [reflexivity|]. split; [exact Hne|]. split; [reflexivity|].
  destruct (connect_failures_retry "mongodb://db:27017/app"
              [("ECONNREFUSED", 12); ("ETIMEDOUT", 30000); ("ECONNREFUSED", 7)]
              (World (Some "mongodb://db:27017/app") 0 [] [])
              eq_refl Hne eq_refl)
    as (_ & _ & _ & Hev & _ & Hclock & _).
  split; [exact Hev | exact Hclock].
Defined.

(** ** The samples, run *)

Example trim_inner : trim (String "009" " a b  ") = "a b".
Proof. reflexivity. Qed.

Example lacks_id_samples :
  lacks_id Sample.ann = false ∧ lacks_id Sample.bob = true
  ∧ lacks_id Sample.cat = true ∧ lacks_id Sample.dan = true.
Proof. repeat split; vm_compute; reflexivity. Qed.

Example oid_sample :
  ObjectId.toString (fst (ObjectId.generate (ObjectId.Generator 1700000000 11259375 41)))
  = "6553f1000000abcdef00002a".
Proof. vm_compute. reflexivity. Qed.

(** * Further properties *)

(** ** The registry between instances *)

Section Registry.

Context {D H : Type} `{!Driver D H}.

Implicit Types (g : global D H) (this : instance).

(** What one resolution does to the registry, the timeouts and the trace:
    either nothing but calls that set no timeout, or one new entry under
    the instance's name with one new timeout. *)
Lemma model_effect this g :
  paired g →
  let g' := snd (model this g) in
  ∃ tr,
    trace g' = (trace g ++ tr)%list
    ∧ forallb as_resolution_makes tr = true
    ∧ timeouts_cleared tr = 0%nat
    ∧ now g' = now g
    ∧ ((tenantDBModel g' = tenantDBModel g ∧ timers g' = timers g
        ∧ next_timer g' = next_timer g ∧ timeouts_set tr = 0%nat)
       ∨ (tenantDBModel g !! collectionName this = None
          ∧ timers g !! next_timer g = None
          ∧ tenantDBModel g'
            = <[collectionName this := Entry (fst (model this g)) (next_timer g)]>
                (tenantDBModel g)
          ∧ timers g'
            = <[next_timer g := Task (now g + TTL) (collectionName this)]> (timers g)
          ∧ next_timer g' = S (next_timer g)
          ∧ timeouts_set tr = 1%nat)).
Proof.
  intros (I1 & I2 & I3). cbv zeta.
  destruct (tenantDBModel g !! collectionName this) as [e|] eqn:E.
  { rewrite (model_hit _ _ _ E). exists []. cbn [snd].
    rewrite app_nil_r. repeat split; auto. }
  assert (Hshape : ∀ sid,
    forallb as_resolution_makes (resolution_effects this sid) = true
    ∧ timeouts_cleared (resolution_effects this sid) = 0%nat
    ∧ timeouts_set (resolution_effects this sid) = 0%nat).
  { intros sid. unfold resolution_effects, index_effects, timeouts_cleared, timeouts_set.
    cbn [forallb as_resolution_makes List.filter is_ClearTimeout is_SetTimeout
         schema_defaults opt__id opt_versionKey opt_createdAt opt_updatedAt negb andb].
    induction (default [] (index this)) as [|[k o] rest IH]; cbn.
    - now rewrite String.eqb_refl.
    - exact IH. }
  destruct (Hshape (next_schema g)) as (S1 & S2 & S3).
  assert (Hfree : timers g !! next_timer g = None).
  { destruct (timers g !! next_timer g) as [t|] eqn:Et; [|reflexivity].
    apply I3 in Et. lia. }
  rewrite (model_miss _ _ E).
  destruct (truthy (tenant_value (tenantId this))); cbn [fst snd trace now tenantDBModel
    timers next_timer].
  - exists (resolution_effects this (next_schema g)
            ++ [MongoBase.SetTimeout (next_timer g) TTL])%list.
    split; [now rewrite <- app_assoc|]. split; [rewrite forallb_app, S1; reflexivity|].
    split; [unfold timeouts_cleared in *; rewrite List.filter_app, length_app, S2;
            reflexivity|].
    split; [reflexivity|]. right. repeat split; auto.
    unfold timeouts_set in *. rewrite List.filter_app, length_app, S3. reflexivity.
  - exists (resolution_effects this (next_schema g)).
    repeat split; auto.
Qed.

Lemma id_trace data g :
  trace (snd (id data g)) = trace g ∧ now (snd (id data g)) = now g.
Proof.
  destruct data as [r|rs].
  - rewrite id_one_run. auto.
  - simpl. pose proof (id_each_run rs g) as E. cbv zeta in E. rewrite E. auto.
Qed.

Lemma steps_reachable g g' : reachable g → steps g g' → reachable g'.
Proof. intros R. induction 1; eauto using reach_step. Qed.

End Registry.

(** X1. The registry is keyed by the collection name alone.  Once a
    tenant instance has resolved its model, any instance with the same
    collection name, whatever its schema, indexes or tenant id, gets that
    same handle and the state stays as the first request left it. *)
Theorem registry_shared_by_name {D H : Type} `{!Driver D H} (first other : instance)
    (g : global D H) :
  truthy (tenant_value (tenantId first)) = true →
  tenantDBModel g !! collectionName first = None →
  collectionName other = collectionName first →
  model other (snd (model first g)) = (fst (model first g), snd (model first g)).
Proof.
  intros Htenant Hmiss Hname.
  pose proof (model_miss first g Hmiss) as E. cbv zeta in E. rewrite Htenant in E.
  rewrite E. cbn [fst snd].
  match goal with
  | |- model other ?s = (?h, _) =>
      rewrite (model_hit other s (Entry h (next_timer g))); [reflexivity|]
  end.
  cbn [tenantDBModel]. rewrite Hname. apply lookup_insert_eq.
Qed.

Lemma registry_shared_by_name_witness :
  truthy (tenant_value (tenantId Sample.orders)) = true
  ∧ tenantDBModel Sample.start !! collectionName Sample.orders = None
  ∧ collectionName orders_again = collectionName Sample.orders
  ∧ model orders_again (snd (model Sample.orders Sample.start))
    = (fst (model Sample.orders Sample.start), snd (model Sample.orders Sample.start)).
Proof.
  split; [reflexivity|]. split; [reflexivity|]. split; [reflexivity|].
  apply registry_shared_by_name; reflexivity.
Defined.

(** X2. A request leaves the other names alone: the entry under any
    name but the instance's own is what it was, and so is its timeout. *)
Theorem model_leaves_other_names {D H : Type} `{!Driver D H} (this : instance)
    (g : global D H) (name : string) :
  reachable g →
  name ≠ collectionName this →
  tenantDBModel (snd (model this g)) !! name = tenantDBModel g !! name
  ∧ ∀ e, tenantDBModel g !! name = Some e →
         timers (snd (model this g)) !! timer e = timers g !! timer e.
Proof.
  intros R Hne. pose proof (reachable_paired g R) as I.
  destruct (model_effect this g I) as (tr & _ & _ & _ & _ & [Hsame|Hnew]).
  - destruct Hsame as (-> & -> & _). auto.
  - destruct Hnew as (_ & Hfree & -> & -> & _). split.
    + apply lookup_insert_ne. congruence.
    + intros e He. destruct I as (I1 & _ & _).
      destruct (I1 _ _ He) as (t & Ht & _).
      apply lookup_insert_ne. intros Heq. rewrite Heq in Hfree. congruence.
Qed.

Lemma model_leaves_other_names_witness :
  let g := snd (model Sample.orders Sample.start) in
  reachable g
  ∧ "t1_orders" ≠ collectionName invoices
  ∧ tenantDBModel (snd (model invoices g)) !! "t1_orders" = tenantDBModel g !! "t1_orders"
  ∧ ∀ e, tenantDBModel g !! "t1_orders" = Some e →
         timers (snd (model invoices g)) !! timer e = timers g !! timer e.
Proof.
  cbv zeta.
  assert (R : reachable (snd (model Sample.orders Sample.start))).
  { eapply reach_step; [apply reach_initial | apply step_model]. }
  assert (Hne : "t1_orders" ≠ collectionName invoices) by discriminate.
  split; [exact R|]. split; [exact Hne|].
  exact (model_leaves_other_names invoices _ "t1_orders" R Hne).
Defined.

(** X3. An instance whose tenant id is missing or the empty string never
    writes the registry: in any state, hit or miss, its request leaves the
    entries, the pending timeouts and the timeout counter as they were. *)
Theorem tenantless_never_registers {D H : Type} `{!Driver D H} (this : instance)
    (g : global D H) :
  tenantId this = None ∨ tenantId this = Some "" →
  tenantDBModel (snd (model this g)) = tenantDBModel g
  ∧ timers (snd (model this g)) = timers g
  ∧ next_timer (snd (model this g)) = next_timer g
  ∧ timeouts_set (trace (snd (model this g))) = timeouts_set (trace g).
Proof.
  intros Hplain.
  assert (Hfalsy : truthy (tenant_value (tenantId this)) = false)
    by (destruct Hplain as [-> | ->]; reflexivity).
  destruct (tenantDBModel g !! collectionName this) as [e|] eqn:E.
  - rewrite (model_hit _ _ _ E). auto.
  - rewrite (model_miss _ _ E), Hfalsy. cbn [snd tenantDBModel timers next_timer trace].
    repeat split.
    unfold timeouts_set. rewrite List.filter_app, length_app.
    unfold resolution_effects, index_effects. cbn [List.filter is_SetTimeout].
    rewrite List.filter_app, length_app. cbn.
    induction (default [] (index this)) as [|ko rest IH]; cbn in *; lia.
Qed.

Lemma tenantless_never_registers_witness :
  (tenantId blank_tenant = None ∨ tenantId blank_tenant = Some "")
  ∧ tenantDBModel (snd (model blank_tenant Sample.start)) = tenantDBModel Sample.start
  ∧ timers (snd (model blank_tenant Sample.start)) = timers Sample.start
  ∧ next_timer (snd (model blank_tenant Sample.start)) = next_timer Sample.start
  ∧ timeouts_set (trace (snd (model blank_tenant Sample.start)))
    = timeouts_set (trace Sample.start).
Proof.
  split; [right; reflexivity|].
  apply (tenantless_never_registers blank_tenant Sample.start). right. reflexivity.
Defined.

(** ** The deadline of an entry *)

Section Deadline.

Context {D H : Type} `{!Driver D H}.

Implicit Types (g s : global D H) (this : instance).

Lemma deadline_frame since tid t name (e : entry H) s s' :
  tenantDBModel s' = tenantDBModel s →
  timers s' = timers s →
  next_timer s' = next_timer s →
  now s' = now s →
  deadline_kept since tid t name e s → deadline_kept since tid t name e s'.
Proof. unfold deadline_kept. intros -> -> -> ->. auto. Qed.

Lemma deadline_model since tid t name (e : entry H) this s :
  paired s →
  deadline_kept since tid t name e s →
  deadline_kept since tid t name e (snd (model this s)).
Proof.
  intros I (Hnow & Hlt & Hcase).
  destruct (model_effect this s I) as (tr & _ & _ & _ & Hn & [Hsame|Hnew]).
  - destruct Hsame as (Hr & Ht & Hnt & _).
    apply (deadline_frame _ _ _ _ _ s); auto. now repeat split.
  - destruct Hnew as (Hmiss & Hfree & Hr & Ht & Hnt & _).
    unfold deadline_kept. rewrite Hr, Ht, Hnt, Hn.
    split; [exact Hnow|]. split; [lia|].
    destruct Hcase as [[Hp He]|[Hg Hd]].
    + left. split.
      * rewrite lookup_insert_ne by lia. exact Hp.
      * rewrite lookup_insert_ne; [exact He|]. intros Heq. rewrite Heq in Hmiss. congruence.
    + right. split; [|exact Hd]. rewrite lookup_insert_ne by lia. exact Hg.
Qed.

Lemma deadline_step since tid t name (e : entry H) s s' :
  paired s →
  timer e = tid →
  step s s' →
  deadline_kept since tid t name e s → deadline_kept since tid t name e s'.
Proof.
  intros I Hte Hstep Q.
  destruct Hstep as [this s | this data s | dt s Hdt | tid' t' s s' Ht' Hdue Hex].
  - now apply deadline_model.
  - rewrite create_state.
    destruct (id_frame data (snd (model this s))) as (E1 & E2 & E3).
    destruct (id_trace data (snd (model this s))) as (_ & E4).
    eapply deadline_frame; eauto using deadline_model.
  - destruct Q as (Hnow & Hlt & Hcase). unfold deadline_kept, advance. cbn.
    split; [lia|]. split; [exact Hlt|].
    destruct Hcase as [?|[? ?]]; [now left | right; split; [assumption | lia]].
  - destruct (expire_pending s tid' t' I Ht') as (e' & He' & Hte' & Hrun).
    rewrite Hrun in Hex. injection Hex as <-.
    destruct Q as (Hnow & Hlt & Hcase). unfold deadline_kept. cbn.
    split; [exact Hnow|]. split; [exact Hlt|].
    destruct Hcase as [[Hp He]|[Hg Hd]].
    + destruct (decide (tid' = tid)) as [->|Hne].
      * right. split; [apply lookup_delete_eq|]. congruence.
      * left. split; [now rewrite !lookup_delete_ne by congruence|].
        rewrite lookup_delete_ne; [exact He|].
        intros Heq. rewrite Heq in He'. congruence.
    + right. split; [|exact Hd].
      assert (tid' ≠ tid) by congruence.
      now rewrite !lookup_delete_ne by congruence.
Qed.

Lemma deadline_steps since tid t name (e : entry H) s s' :
  reachable s →
  timer e = tid →
  steps s s' →
  deadline_kept since tid t name e s → deadline_kept since tid t name e s'.
Proof.
  intros R Hte Hsteps Q. induction Hsteps as [s | s s1 s2 Hsteps IH Hstep]; [exact Q|].
  eapply deadline_step; [|exact Hte|exact Hstep|auto].
  apply reachable_paired. eapply steps_reachable; eauto.
Qed.

End Deadline.

(** X4. The deadline of an entry is fixed when the entry is made and no
    request moves it.  After a tenant instance has resolved its model at
    time [now g], and whatever happens next (requests for this or other
    names, creates, time passing, other entries expiring): as long as the
    timeout is pending it is still due at [now g] plus 30 minutes and the
    entry still holds the handle of that first request; once it is no
    longer pending, at least 30 minutes have passed. *)
Theorem entry_deadline_fixed {D H : Type} `{!Driver D H} (this : instance)
    (g g' : global D H) :
  reachable g →
  truthy (tenant_value (tenantId this)) = true →
  tenantDBModel g !! collectionName this = None →
  steps (snd (model this g)) g' →
  (now g ≤ now g')%Z
  ∧ match timers g' !! next_timer g with
    | Some t =>
        t = Task (now g + 1800000) (collectionName this)
        ∧ tenantDBModel g' !! collectionName this
          = Some (Entry (fst (model this g)) (next_timer g))
    | None => (now g + 1800000 ≤ now g')%Z
    end.
Proof.
  intros R Htenant Hmiss Hsteps.
  assert (R1 : reachable (snd (model this g))).
  { eapply reach_step; [exact R | apply step_model]. }
  assert (Q : deadline_kept (now g) (next_timer g)
                (Task (now g + TTL) (collectionName this)) (collectionName this)
                (Entry (fst (model this g)) (next_timer g)) (snd (model this g))).
  { pose proof (model_miss this g Hmiss) as E. cbv zeta in E. rewrite Htenant in E.
    rewrite E. unfold deadline_kept. cbn.
    split; [lia|]. split; [lia|]. left. split; apply lookup_insert_eq. }
  apply (deadline_steps (now g) (next_timer g)
           (Task (now g + TTL) (collectionName this)) (collectionName this)
           (Entry (fst (model this g)) (next_timer g)) _ g' R1 eq_refl Hsteps) in Q.
  destruct Q as (Hnow & _ & [[Hp He]|[Hg Hd]]).
  - split; [exact Hnow|]. rewrite Hp. split; [reflexivity | exact He].
  - split; [exact Hnow|]. rewrite Hg. exact Hd.
Qed.

Lemma entry_deadline_fixed_witness :
  let g1 := snd (model Sample.orders Sample.start) in
  let g2 := advance 600000 (snd (model orders_again g1)) in
  reachable Sample.start
  ∧ truthy (tenant_value (tenantId Sample.orders)) = true
  ∧ tenantDBModel Sample.start !! collectionName Sample.orders = None
  ∧ steps g1 g2
  ∧ timers g2 !! 0%nat = Some (Task 1800000 "t1_orders")
  ∧ (now Sample.start ≤ now g2)%Z.
Proof.
  cbv zeta.
  assert (R : reachable Sample.start) by apply reach_initial.
  assert (S : steps (snd (model Sample.orders Sample.start))
                (advance 600000
                   (snd (model orders_again (snd (model Sample.orders Sample.start)))))).
  { eapply steps_more; [eapply steps_more; [apply steps_here | apply step_model]|].
    apply step_tick. lia. }
  split; [exact R|]. split; [reflexivity|]. split; [reflexivity|]. split; [exact S|].
  destruct (entry_deadline_fixed Sample.orders Sample.start _ R eq_refl eq_refl S)
    as (Hnow & Hpending).
  split; [vm_compute; reflexivity | exact Hnow].
Defined.

(** ** What the trace adds up to *)

Lemma timeouts_set_app tr1 tr2 :
  timeouts_set (tr1 ++ tr2)%list = (timeouts_set tr1 + timeouts_set tr2)%nat.
Proof. unfold timeouts_set. now rewrite List.filter_app, length_app. Qed.

Lemma timeouts_cleared_app tr1 tr2 :
  timeouts_cleared (tr1 ++ tr2)%list = (timeouts_cleared tr1 + timeouts_cleared tr2)%nat.
Proof. unfold timeouts_cleared. now rewrite List.filter_app, length_app. Qed.

Lemma size_delete_present `{Countable K} {A} (m : gmap K A) (k : K) (x : A) :
  m !! k = Some x → size m = S (size (delete k m)).
Proof.
  intros Hk. rewrite map_size_delete_Some by eauto.
  destruct (size m) eqn:E; [|reflexivity].
  apply map_size_empty_iff in E. subst m. now rewrite lookup_empty in Hk.
Qed.

(** X5. No timeout leaks.  In every state the process can reach, the
    timeouts set so far are as many as the timeout counter says, the
    registry has as many entries as there are timeouts pending, and the
    timeouts set are those cleared plus those pending. *)
Theorem timeouts_add_up {D H : Type} `{!Driver D H} (g : global D H) :
  reachable g →
  timeouts_set (trace g) = next_timer g
  ∧ size (tenantDBModel g) = size (timers g)
  ∧ timeouts_set (trace g) = (timeouts_cleared (trace g) + size (timers g))%nat.
Proof.
  assert (Hmodel : ∀ this (s : global D H),
    paired s →
    timeouts_set (trace s) = next_timer s
    ∧ size (tenantDBModel s) = size (timers s)
    ∧ timeouts_set (trace s) = (timeouts_cleared (trace s) + size (timers s))%nat →
    timeouts_set (trace (snd (model this s))) = next_timer (snd (model this s))
    ∧ size (tenantDBModel (snd (model this s))) = size (timers (snd (model this s)))
    ∧ timeouts_set (trace (snd (model this s)))
      = (timeouts_cleared (trace (snd (model this s)))
         + size (timers (snd (model this s))))%nat).
  { intros this s I (L1 & L2 & L3).
    destruct (model_effect this s I) as (tr & -> & _ & Hc & _ & [Hsame|Hnew]);
      rewrite timeouts_set_app, timeouts_cleared_app, Hc.
    - destruct Hsame as (-> & -> & -> & ->). lia.
    - destruct Hnew as (Hmiss & Hfree & -> & -> & -> & ->).
      rewrite !map_size_insert_None by assumption. lia. }
  induction 1 as [d gen t | g g' R IH Hstep].
  - cbn. rewrite !map_size_empty. auto.
  - pose proof (reachable_paired g R) as I.
    destruct Hstep as [this g | this data g | dt g _ | tid t g g' Ht _ Hex].
    + now apply Hmodel.
    + rewrite create_state.
      destruct (id_frame data (snd (model this g))) as (-> & -> & ->).
      destruct (id_trace data (snd (model this g))) as (-> & _).
      now apply Hmodel.
    + exact IH.
    + destruct (expire_pending g tid t I Ht) as (e & He & Hte & Hrun).
      rewrite Hrun in Hex. injection Hex as <-.
      cbn [trace tenantDBModel timers next_timer].
      destruct IH as (L1 & L2 & L3).
      rewrite timeouts_set_app, timeouts_cleared_app.
      change (timeouts_set [ClearTimeout tid]) with 0%nat.
      change (timeouts_cleared [ClearTimeout tid]) with 1%nat.
      rewrite (delete_id (delete tid (timers g)) tid) by apply lookup_delete_eq.
      pose proof (size_delete_present _ _ _ Ht).
      pose proof (size_delete_present _ _ _ He).
      lia.
Qed.

Lemma timeouts_add_up_witness :
  let g := snd (model invoices (snd (model Sample.orders Sample.start))) in
  reachable g
  ∧ timeouts_set (trace g) = 2%nat
  ∧ size (tenantDBModel g) = size (timers g)
  ∧ timeouts_set (trace g) = (timeouts_cleared (trace g) + size (timers g))%nat.
Proof.
  cbv zeta.
  assert (R : reachable (snd (model invoices (snd (model Sample.orders Sample.start))))).
  { eapply reach_step; [eapply reach_step; [apply reach_initial|]|]; apply step_model. }
  split; [exact R|].
  destruct (timeouts_add_up _ R) as (L1 & L2 & L3).
  split; [rewrite L1; reflexivity|]. split; [exact L2 | exact L3].
Defined.

(** X6. Every call model resolution ever makes has the same shape: a
    schema is built with the automatic [_id] and the version key off and
    both time stamps on, an index is declared on one field, ascending, the
    model is asked for with the collection named like the model, and a
    timeout is set for 1 800 000 ms. *)
Theorem resolution_calls_shape {D H : Type} `{!Driver D H} (g : global D H) :
  reachable g → forallb as_resolution_makes (trace g) = true.
Proof.
  induction 1 as [d gen t | g g' R IH Hstep]; [reflexivity|].
  pose proof (reachable_paired g R) as I.
  destruct Hstep as [this g | this data g | dt g _ | tid t g g' Ht _ Hex].
  - destruct (model_effect this g I) as (tr & -> & Hshape & _).
    now rewrite forallb_app, IH, Hshape.
  - rewrite create_state.
    destruct (id_trace data (snd (model this g))) as (-> & _).
    destruct (model_effect this g I) as (tr & -> & Hshape & _).
    now rewrite forallb_app, IH, Hshape.
  - exact IH.
  - destruct (expire_pending g tid t I Ht) as (e & He & Hte & Hrun).
    rewrite Hrun in Hex. injection Hex as <-. cbn.
    now rewrite forallb_app, IH.
Qed.

Lemma resolution_calls_shape_witness :
  let g := snd (model Sample.users (snd (model Sample.orders Sample.start))) in
  reachable g
  ∧ length (trace g) = 8%nat
  ∧ forallb as_resolution_makes (trace g) = true.
Proof.
  cbv zeta.
  assert (R : reachable (snd (model Sample.users (snd (model Sample.orders Sample.start))))).
  { eapply reach_step; [eapply reach_step; [apply reach_initial|]|]; apply step_model. }
  split; [exact R|]. split; [vm_compute; reflexivity|].
  exact (resolution_calls_shape _ R).
Defined.

(** ** What create hands over *)

Lemma filter_none {A} (f : A → bool) (l : list A) :
  forallb (λ x, negb (f x)) l = true → List.filter f l = [].
Proof.
  induction l as [|x l IH]; [reflexivity|]. cbn.
  destruct (f x); cbn; [discriminate | exact IH].
Qed.

(** X7. The single form of create changes nothing in the record but
    [_id]: every other field of the document saved is the caller's, its
    [_id] is a string that is not blank, one identifier is drawn from the
    generator, and the state is otherwise the one model resolution left. *)
Theorem create_one_changes_only_id {D H : Type} `{!Driver D H} (this : instance)
    (r : object) (g : global D H) :
  ∃ doc g',
    create this (One r) g = (Invoke (fst (model this g)) (Save doc), g')
    ∧ (∀ k, k ≠ "_id" → doc !! k = r !! k)
    ∧ lacks_id doc = false
    ∧ objectid g' = snd (ObjectId.generate (objectid g))
    ∧ trace g' = trace (snd (model this g))
    ∧ tenantDBModel g' = tenantDBModel (snd (model this g))
    ∧ timers g' = timers (snd (model this g)).
Proof.
  unfold create. unfold bind at 1.
  pose proof (model_objectid this g) as Ho.
  destruct (model this g) as [m g1]. cbn [fst snd] in *.
  unfold bind at 1. rewrite id_one_run. rewrite Ho.
  eexists; eexists. split; [reflexivity|].
  split; [intros k Hk; unfold with_id; apply lookup_insert_ne; congruence|].
  split; [apply with_id_has_id|]. cbn. auto.
Qed.

(** X8. The array form: the documents handed to [insertMany] are no more
    than the records given, each has an [_id] that is a string and not
    blank, the document at a position is the record at that position among
    those that lacked an identifier, with only [_id] changed, and the
    generator has advanced by exactly the number of documents. *)
Theorem create_many_documents {D H : Type} `{!Driver D H} (this : instance)
    (rs : list object) (g : global D H) :
  ∃ docs g',
    create this (Many rs) g = (Invoke (fst (model this g)) (InsertMany docs), g')
    ∧ (length docs ≤ length rs)%nat
    ∧ Forall (λ d, lacks_id d = false) docs
    ∧ (∀ i d, docs !! i = Some d →
         ∃ r, List.filter lacks_id rs !! i = Some r
              ∧ lacks_id r = true
              ∧ ∀ k, k ≠ "_id" → d !! k = r !! k)
    ∧ objectid g' = generator_after (length docs) (objectid g)
    ∧ trace g' = trace (snd (model this g)).
Proof.
  unfold create. unfold bind at 1.
  pose proof (model_objectid this g) as Ho.
  destruct (model this g) as [m g1]. cbn [fst snd] in *.
  unfold bind at 1. cbn [id].
  pose proof (id_each_run rs g1) as E. cbv zeta in E. rewrite E, Ho.
  set (todo := List.filter lacks_id rs).
  set (ids := identifiers (length todo) (objectid g)).
  assert (Hlen : length (zip_with with_id todo ids) = length todo).
  { rewrite length_zip_with. unfold ids. rewrite identifiers_length. lia. }
  eexists; eexists. split; [reflexivity|]. split; [|split; [|split; [|split]]].
  - rewrite Hlen. unfold todo. apply List.filter_length_le.
  - apply Forall_forall. intros d Hd.
    apply list_elem_of_lookup in Hd as [i Hi].
    apply lookup_zip_with_Some in Hi as (r & s & -> & _ & Hs).
    apply list_elem_of_lookup_2 in Hs.
    unfold ids in Hs. clear -Hs. revert Hs. generalize (objectid g).
    induction (length todo) as [|n IH]; intros gen Hs.
    + now apply elem_of_nil in Hs.
    + cbn [identifiers ObjectId.generate] in Hs.
      apply elem_of_cons in Hs as [->|Hs]; [apply with_id_has_id | eauto].
  - intros i d Hi.
    apply lookup_zip_with_Some in Hi as (r & s & -> & Hr & _).
    exists r. split; [exact Hr|]. split.
    + apply list_elem_of_lookup_2, list_elem_of_In, List.filter_In in Hr. tauto.
    + intros k Hk. unfold with_id. apply lookup_insert_ne. congruence.
  - cbn [objectid]. now rewrite Hlen.
  - reflexivity.
Qed.

(** X9. An array in which every record already has an identifier inserts
    nothing: [insertMany] gets the empty array and no identifier is drawn.
    The empty array is one case; what an earlier create handed over is
    another. *)
Theorem create_identified_inserts_nothing {D H : Type} `{!Driver D H}
    (this : instance) (rs : list object) (g : global D H) :
  forallb (λ r, negb (lacks_id r)) rs = true →
  create this (Many rs) g = (Invoke (fst (model this g)) (InsertMany []), snd (model this g)).
Proof.
  intros Hall. unfold create. unfold bind at 1.
  destruct (model this g) as [m g1]. cbn [fst snd].
  unfold bind at 1. cbn [id].
  pose proof (id_each_run rs g1) as E. cbv zeta in E.
  rewrite E, (filter_none _ _ Hall). cbn. unfold ret. now destruct g1.
Qed.

Lemma create_identified_inserts_nothing_witness :
  let given := [Sample.ann; with_id Sample.bob "6553f1000000abcdef00002a"] in
  forallb (λ r, negb (lacks_id r)) given = true
  ∧ create Sample.users (Many given) Sample.start
    = (Invoke (fst (model Sample.users Sample.start)) (InsertMany []),
       snd (model Sample.users Sample.start)).
Proof.
  cbv zeta. split; [vm_compute; reflexivity|].
  apply create_identified_inserts_nothing. vm_compute. reflexivity.
Defined.

(** ** The connection manager, further *)

Lemma failed_attempts_run addr fs w :
  MONGO_URL w = Some addr → addr ≠ "" → pending w = [] →
  failed_attempts fs w
  = World (Some addr) (clock w + foldr (λ f acc, snd f + 5000 + acc) 0 fs) []
          (events w ++ flat_map (λ f, [Log "mongodb" Error (fst f);
                                       MongoConnect.SetTimeout 5000;
                                       Connect addr]) fs).
Proof.
  intros Hurl Hne. revert w Hurl.
  induction fs as [|[e l] rest IH]; intros w Hurl Hpend.
  - cbn. rewrite app_nil_r, Z.add_0_r. destruct w; cbn in *. congruence.
  - unfold failed_attempts. cbn [fold_left].
    fold (failed_attempts rest (failed_attempt (e, l) w)).
    rewrite (failed_attempt_run w addr e l Hurl Hne Hpend).
    rewrite IH by reflexivity. cbn. f_equal; [lia|]. now rewrite <- app_assoc.
Qed.

Lemma attempts_app w evs :
  MongoDB.attempts (World (MONGO_URL w) (clock w) (pending w) (events w ++ evs))
  = (MongoDB.attempts w
     + length (List.filter (λ ev, match ev with Connect _ => true | _ => false end) evs))%nat.
Proof. unfold MongoDB.attempts. cbn. now rewrite List.filter_app, length_app. Qed.



(** X11. Every retry reads the configuration again.  If the address has
    changed by the time the timeout of a failed attempt is due, the retry
    goes to the new address; if it has been removed or emptied, the retry
    logs the configuration error instead, sets no timeout, and nothing is
    left to run: the loop has ended. *)
Theorem retry_follows_configuration (e : string) (a : option string) (w : world) :
  pending w = [] →
  let w1 := run_timeout (reconfigure a (snd (callback (Some e) w))) in
  pending w1 = []
  ∧ run_timeout w1 = w1
  ∧ events w1
    = (events w
       ++ [Log "mongodb" Error e; MongoConnect.SetTimeout 5000;
           if truthy (address_value a) then Connect (interpolate a)
           else Log "mongodb" Error
                  ("mongodb connect address is required but get " ++ interpolate a)])%list
  ∧ clock w1 = clock w + 5000.
Proof.
  intros Hpend. cbv zeta.
  unfold callback, MongoConnect.setTimeout, RECONNET_TIME, reconfigure, run_timeout,
    mongoconnect, MongoConnect.emit.
  cbn. rewrite Hpend. cbn.
  destruct (truthy (address_value a)); cbn; rewrite <- !app_assoc; cbn;
    repeat split; lia.
Qed.

Lemma retry_follows_configuration_witness :
  let w := World (Some "mongodb://old:27017/app") 100 [] [] in
  let w1 := run_timeout (reconfigure None (snd (callback (Some "ECONNREFUSED") w))) in
  pending w = []
  ∧ pending w1 = []
  ∧ run_timeout w1 = w1
  ∧ events w1
    = [Log "mongodb" Error "ECONNREFUSED"; MongoConnect.SetTimeout 5000;
       Log "mongodb" Error "mongodb connect address is required but get undefined"]
  ∧ clock w1 = 5100.
Proof.
  cbv zeta. split; [reflexivity|].
  exact (retry_follows_configuration "ECONNREFUSED" None
           (World (Some "mongodb://old:27017/app") 100 [] []) eq_refl).
Defined.

(** ** The listeners of the MongoDB class *)

Lemma signalled_run armed s w :
  MongoDB.signalled s (MongoDB.Service w (MongoDB.registered armed))
  = MongoDB.Service
      (match s with
       | MongoDB.connected => if armed then MongoDB.react MongoDB.connected_info w else w
       | MongoDB.disconnected => MongoDB.react MongoDB.disconnected_fatal w
       | MongoDB.reconnected => MongoDB.react MongoDB.reconnected_info w
       end)
      (MongoDB.registered
         (armed && negb (bool_decide (s = MongoDB.connected)))).
Proof. destruct armed, s; reflexivity. Qed.

Lemma logged_emit lvl msg lvl' msg' w :
  MongoDB.logged lvl msg (MongoConnect.emit (Log "mongodb" lvl' msg') w)
  = (MongoDB.logged lvl msg w
     + (if bool_decide (Log "mongodb" lvl' msg' = Log "mongodb" lvl msg) then 1 else 0))%nat.
Proof.
  unfold MongoDB.logged, MongoConnect.emit. cbn [events].
  rewrite List.filter_app, length_app. cbn. now case_bool_decide.
Qed.

Lemma connected_not_reconnected a a' :
  MongoDB.connected_message a ≠ MongoDB.reconnected_message a'.
Proof. unfold MongoDB.connected_message, MongoDB.reconnected_message. cbn. discriminate. Qed.

(** What one reaction adds to the log, and what it leaves alone. *)
Lemma react_observed r w :
  let a := MONGO_URL w in
  let w' := MongoDB.react r w in
  MONGO_URL w' = a
  ∧ pending w' = pending w
  ∧ clock w' = clock w
  ∧ MongoDB.attempts w' = MongoDB.attempts w
  ∧ MongoDB.logged Info (MongoDB.connected_message a) w'
    = (MongoDB.logged Info (MongoDB.connected_message a) w
       + MongoDB.tally (bool_decide (r = MongoDB.connected_info)))%nat
  ∧ MongoDB.logged Fatal MongoDB.disconnected_message w'
    = (MongoDB.logged Fatal MongoDB.disconnected_message w
       + MongoDB.tally (bool_decide (r = MongoDB.disconnected_fatal)))%nat
  ∧ MongoDB.logged Info (MongoDB.reconnected_message a) w'
    = (MongoDB.logged Info (MongoDB.reconnected_message a) w
       + MongoDB.tally (bool_decide (r = MongoDB.reconnected_info)))%nat.
Proof.
  cbv zeta.
  pose proof (connected_not_reconnected (MONGO_URL w) (MONGO_URL w)) as Hd.
  assert (Ha : ∀ l m, MongoDB.attempts (MongoConnect.emit (Log "mongodb" l m) w)
                      = MongoDB.attempts w).
  { intros. unfold MongoDB.attempts, MongoConnect.emit. cbn [events].
    rewrite List.filter_app, length_app. cbn. lia. }
  destruct r; unfold MongoDB.react;
    fold (MongoDB.connected_message (MONGO_URL w));
    fold MongoDB.disconnected_message;
    fold (MongoDB.reconnected_message (MONGO_URL w));
    rewrite !logged_emit, Ha;
    (split; [reflexivity|]); (split; [reflexivity|]); (split; [reflexivity|]);
    (split; [reflexivity|]);
    repeat case_bool_decide; try congruence; cbn; auto.
Qed.

(** The listeners at work from any point on: [armed] tells whether the
    [once] listener is still registered. *)
Lemma signals_run ss : ∀ armed w,
  let v := fold_left (λ v s, MongoDB.signalled s v) ss
             (MongoDB.Service w (MongoDB.registered armed)) in
  let a := MONGO_URL w in
  MONGO_URL (MongoDB.world_of v) = a
  ∧ pending (MongoDB.world_of v) = pending w
  ∧ clock (MongoDB.world_of v) = clock w
  ∧ MongoDB.attempts (MongoDB.world_of v) = MongoDB.attempts w
  ∧ MongoDB.logged Info (MongoDB.connected_message a) (MongoDB.world_of v)
    = (MongoDB.logged Info (MongoDB.connected_message a) w
       + (if armed then Nat.min 1 (MongoDB.occurrences MongoDB.connected ss) else 0))%nat
  ∧ MongoDB.logged Fatal MongoDB.disconnected_message (MongoDB.world_of v)
    = (MongoDB.logged Fatal MongoDB.disconnected_message w
       + MongoDB.occurrences MongoDB.disconnected ss)%nat
  ∧ MongoDB.logged Info (MongoDB.reconnected_message a) (MongoDB.world_of v)
    = (MongoDB.logged Info (MongoDB.reconnected_message a) w
       + MongoDB.occurrences MongoDB.reconnected ss)%nat
  ∧ MongoDB.listeners v
    = MongoDB.registered
        (armed && Nat.eqb (MongoDB.occurrences MongoDB.connected ss) 0).
Proof.
  induction ss as [|s ss IH]; intros armed w; cbv zeta.
  - cbn. rewrite andb_true_r. destruct armed; repeat split; lia.
  - cbn [fold_left]. rewrite signalled_run.
    assert (Hocc : ∀ x, MongoDB.occurrences x (s :: ss)
                        = (MongoDB.tally (bool_decide (s = x)) + MongoDB.occurrences x ss)%nat).
    { intros x. unfold MongoDB.occurrences. cbn. now case_bool_decide. }
    rewrite !Hocc.
    set (r := match s with
              | MongoDB.connected => MongoDB.connected_info
              | MongoDB.disconnected => MongoDB.disconnected_fatal
              | MongoDB.reconnected => MongoDB.reconnected_info
              end).
    destruct (react_observed r w) as (U & P & C & A & L1 & L2 & L3).
    set (b1 := armed && negb (bool_decide (s = MongoDB.connected))).
    destruct s, armed; subst r b1; cbn [andb negb MongoDB.tally] in *;
      rewrite ?bool_decide_eq_true_2 in * by reflexivity;
      rewrite ?bool_decide_eq_false_2 in * by discriminate;
      cbn [andb negb MongoDB.tally] in *.
    all: match goal with
         | |- context [fold_left _ _ (MongoDB.Service ?w1 (MongoDB.registered ?b))] =>
             destruct (IH b w1) as (U' & P' & C' & A' & L1' & L2' & L3' & Ls')
         end.
    all: rewrite ?U in *.
    all: rewrite U', P', C', A', L1', L2', L3', Ls'.
    all: rewrite ?P, ?C, ?A, ?L1, ?L2, ?L3.
    all: repeat split; try lia; try reflexivity.
    all: repeat case_bool_decide; try congruence; cbn [MongoDB.tally]; try lia.
    all: destruct (MongoDB.occurrences MongoDB.connected ss); cbn; lia.
Qed.

(** X12. What the listeners of the constructor log.  Whatever signals the
    connection emits after the module has been loaded: the message of the
    first [connected] is logged once and never again, every [disconnected]
    logs the fatal message and every [reconnected] the reconnect message;
    the listeners make no connection attempt and set no timeout, so a
    disconnect by itself schedules nothing. *)
Theorem lifecycle_signals_logged (ss : list MongoDB.signal) (w : world) :
  let v := fold_left (λ v s, MongoDB.signalled s v) ss (MongoDB.constructor w) in
  let a := MONGO_URL w in
  MongoDB.logged Info (MongoDB.connected_message a) (MongoDB.world_of v)
  = (MongoDB.logged Info (MongoDB.connected_message a) w
     + Nat.min 1 (MongoDB.occurrences MongoDB.connected ss))%nat
  ∧ MongoDB.logged Fatal MongoDB.disconnected_message (MongoDB.world_of v)
    = (MongoDB.logged Fatal MongoDB.disconnected_message w
       + MongoDB.occurrences MongoDB.disconnected ss)%nat
  ∧ MongoDB.logged Info (MongoDB.reconnected_message a) (MongoDB.world_of v)
    = (MongoDB.logged Info (MongoDB.reconnected_message a) w
       + MongoDB.occurrences MongoDB.reconnected ss)%nat
  ∧ MongoDB.attempts (MongoDB.world_of v)
    = (MongoDB.attempts w + MongoDB.tally (truthy (address_value a)))%nat
  ∧ pending (MongoDB.world_of v) = pending w
  ∧ MongoDB.listeners v
    = MongoDB.registered (Nat.eqb (MongoDB.occurrences MongoDB.connected ss) 0).
Proof.
  cbv zeta.
  change (MongoDB.constructor w)
    with (MongoDB.Service (snd (mongoconnect w)) (MongoDB.registered true)).
  destruct (signals_run ss true (snd (mongoconnect w)))
    as (U & P & C & A & L1 & L2 & L3 & Ls).
  assert (Hw : MONGO_URL (snd (mongoconnect w)) = MONGO_URL w
               ∧ pending (snd (mongoconnect w)) = pending w
               ∧ MongoDB.attempts (snd (mongoconnect w))
                 = (MongoDB.attempts w + MongoDB.tally (truthy (address_value (MONGO_URL w))))%nat
               ∧ ∀ l m, l ≠ Error →
                   MongoDB.logged l m (snd (mongoconnect w)) = MongoDB.logged l m w).
  { unfold mongoconnect, MongoDB.attempts, MongoDB.logged.
    destruct (truthy (address_value (MONGO_URL w))); cbn;
      repeat split; rewrite ?List.filter_app, ?length_app; cbn; try lia;
      intros l m Hl; rewrite List.filter_app, length_app; cbn;
      case_bool_decide; cbn; try lia; congruence. }
  destruct Hw as (Wu & Wp & Wa & Wl).
  rewrite Wu in *. rewrite L1, L2, L3, A, P, Ls, Wa, Wp.
  rewrite !Wl by discriminate. auto 10.
Qed.

(** ** The other operations *)

Lemma equal_fields_empty d : Engine.equal_fields ∅ d = true.
Proof. unfold Engine.equal_fields. now rewrite map_fold_empty. Qed.

Lemma filter_all {A} (f : A → bool) (l : list A) :
  (∀ x, f x = true) → List.filter f l = l.
Proof.
  intros Hf. induction l as [|x l IH]; [reflexivity|]. cbn. now rewrite Hf, IH.
Qed.



(** A bag with a skip and a limit is what pages a [find]. *)
Example find_with_options :
  fst (Engine.perform
         (request (fst (Facade.find Sample.users None
                          (Some (<["skip" := VNum 1]> (<["limit" := VNum 1]> ∅)))
                          Sample.start)))
         (Engine.Store [Sample.ann; Sample.bob; Sample.cat] (ObjectId.Generator 0 0 0)))
  = Engine.Found [Sample.bob].
Proof. vm_compute. reflexivity. Qed.

Section Operations.

Context {D H : Type} `{!Driver D H}.

Implicit Types (g : global D H) (this : instance).

(** After its request a tenant instance has its handle in the registry,
    whether it was there before or not. *)
Lemma model_registers this g :
  truthy (tenant_value (tenantId this)) = true →
  ∃ e, tenantDBModel (snd (model this g)) !! collectionName this = Some e
       ∧ data e = fst (model this g).
Proof.
  intros Htenant.
  destruct (tenantDBModel g !! collectionName this) as [e|] eqn:E.
  - rewrite (model_hit _ _ _ E). eauto.
  - rewrite (model_miss _ _ E), Htenant. cbn. rewrite lookup_insert_eq. eauto.
Qed.

End Operations.

(** X14. Every operation of a tenant instance goes through the registry.
    Whichever operation is called, the model it addresses is the handle
    that is registered under the collection name when the operation
    returns, the registry and the timeouts are as model resolution left
    them, and any instance of that name resolved next gets that handle. *)
Theorem operations_use_registered_handle {D H : Type} `{!Driver D H}
    (this : instance) (g : global D H) (q u : object) (o qo : option object)
    (limit skip : number) (sort : option sort_spec) (records : payload)
    (_id : string) :
  truthy (tenant_value (tenantId this)) = true →
  let h := fst (model this g) in
  let g1 := snd (model this g) in
  (∃ e, tenantDBModel g1 !! collectionName this = Some e ∧ data e = h)
  ∧ (∀ next, collectionName next = collectionName this → model next g1 = (h, g1))
  ∧ (target (fst (create this records g)) = h
     ∧ tenantDBModel (snd (create this records g)) = tenantDBModel g1
     ∧ timers (snd (create this records g)) = timers g1)
  ∧ (fst (updateOne this q u o g), snd (updateOne this q u o g))
    = (Invoke h (UpdateOne q u o), g1)
  ∧ (fst (updateMany this q u o g), snd (updateMany this q u o g))
    = (Invoke h (UpdateMany q u o), g1)
  ∧ (target (fst (upsertOne this q u o g)), snd (upsertOne this q u o g)) = (h, g1)
  ∧ (target (fst (upsertMany this q u o g)), snd (upsertMany this q u o g)) = (h, g1)
  ∧ (target (fst (paging this q limit skip sort o g)),
     snd (paging this q limit skip sort o g)) = (h, g1)
  ∧ (target (fst (count this qo g)), snd (count this qo g)) = (h, g1)
  ∧ (target (fst (Facade.find this qo o g)), snd (Facade.find this qo o g)) = (h, g1)
  ∧ Facade.findOne this q o g = (Facade.Act h (Facade.FindOne q VNull o true), g1)
  ∧ Facade.findById this _id o g = (Facade.Act h (Facade.FindById _id VNull o true), g1)
  ∧ Facade.removeOne this q g = (Facade.Act h (Facade.DeleteOne q), g1)
  ∧ Facade.removeMany this q g = (Facade.Act h (Facade.DeleteMany q), g1)
  ∧ Facade.aggregate this g = (Facade.Act h Facade.AggregateOf, g1).
Proof.
  intros Htenant. cbv zeta.
  destruct (model_registers this g Htenant) as (e & He & Hd).
  split; [eauto|]. split.
  { intros next Hname. rewrite <- Hd. apply model_hit. now rewrite Hname. }
  split.
  { rewrite create_state.
    destruct (id_frame records (snd (model this g))) as (-> & -> & _).
    split; [|auto]. unfold create, bind, ret.
    destruct records; destruct (model this g) as [m g1]; cbn [fst snd];
      now destruct (id _ g1). }
  unfold upsertOne, upsertMany, updateOne, updateMany, paging, count, Facade.find,
    Facade.findOne, Facade.findById, Facade.removeOne, Facade.removeMany,
    Facade.aggregate, bind, ret.
  destruct qo; destruct (model this g) as [m g1]; cbn [fst snd target]; auto 20.
Qed.

Lemma operations_use_registered_handle_witness :
  let h := fst (model Sample.orders Sample.start) in
  let g1 := snd (model Sample.orders Sample.start) in
  truthy (tenant_value (tenantId Sample.orders)) = true
  ∧ model orders_again g1 = (h, g1)
  ∧ Facade.removeMany Sample.orders ∅ Sample.start
    = (Facade.Act h (Facade.DeleteMany ∅), g1).
Proof.
  cbv zeta. split; [reflexivity|].
  destruct (operations_use_registered_handle Sample.orders Sample.start ∅ ∅ None None
              (Int 0) (Int 0) None (Many []) "" eq_refl)
    as (_ & Hnext & _ & _ & _ & _ & _ & _ & _ & _ & _ & _ & _ & Hremove & _).
  split; [apply Hnext; reflexivity | exact Hremove].
Defined.
